(** * Sora MCP server: the tool handlers of [registerTools], embedded and verified

    The development follows the TypeScript module that registers the seven
    Sora tools (create-video, remix-video, get-video-status, list-videos,
    download-video, save-video, delete-video).

    - Strings are [String.string]; a character stands for one UTF-16 code unit
      in the range 0..255.  Every literal the code compares against is ASCII.
    - Everything outside the module (process environment, file system, the
      [path] and [sharp] libraries, [JSON], [fetch]) is a field of the record
      [World]; a handler is a function of the world and of its arguments.
    - A handler runs in the monad [M]: it logs every external call it makes,
      in order, and either returns a value or throws an [Error] message.
    - The world answers by functions.  Within one invocation no handler puts
      the same question twice (the two requests of save-video have different
      URLs), so nothing is lost against a world that changes as it is used. *)

From Stdlib Require Import ZArith String Ascii List Bool Lia.
From Stdlib Require Import DecimalString DecimalPos DecimalZ.
From stdpp Require Import gmap strings.

#[local] Set Warnings "-register-all".
#[local] Open Scope Z_scope.

(** ** JavaScript built-ins used by the handlers *)

Module JS.

Definition dquote : string := String "034"%char EmptyString.
Definition newline : string := String "010"%char EmptyString.

(** Truthiness of a string: only the empty string is falsy. *)
Definition truthy (s : string) : bool :=
  match s with
  | EmptyString => false
  | String _ _ => true
  end.

(** [a || b] on strings where [a] may be [undefined]. *)
Definition or_else (o : option string) (d : string) : string :=
  match o with
  | Some s => if truthy s then s else d
  | None => d
  end.

(** A destructuring default [x = d]: used only when [x] is [undefined]. *)
Definition default_arg {A : Type} (o : option A) (d : A) : A :=
  match o with
  | Some a => a
  | None => d
  end.

(** [String(n)] for an integer Number. *)
Definition string_of_Z (z : Z) : string := NilZero.string_of_int (Z.to_int z).

Definition code (c : ascii) : N := N_of_ascii c.

(** [String.prototype.toLowerCase] on code units 0..255: A-Z and the
    capital letters U+00C0..U+00DE (without the multiplication sign). *)
Definition lower_char (c : ascii) : ascii :=
  let n := code c in
  if ((65 <=? n) && (n <=? 90))%N
     || ((192 <=? n) && (n <=? 222) && negb (n =? 215))%N
  then ascii_of_N (n + 32)
  else c.

Fixpoint toLowerCase (s : string) : string :=
  match s with
  | EmptyString => EmptyString
  | String c r => String (lower_char c) (toLowerCase r)
  end.

(** [s.split(sep)] for a one-character separator. *)
Fixpoint split (sep : ascii) (s : string) : list string :=
  match s with
  | EmptyString => [EmptyString]
  | String c r =>
      if Ascii.eqb c sep then EmptyString :: split sep r
      else match split sep r with
           | [] => [String c EmptyString]
           | h :: t => String c h :: t
           end
  end.

(** [Array.prototype.pop]: the last element, [undefined] on an empty array. *)
Fixpoint pop (l : list string) : option string :=
  match l with
  | [] => None
  | [x] => Some x
  | _ :: r => pop r
  end.

(** [s.startsWith(p)]. *)
Definition startsWith (s p : string) : bool := String.prefix p s.

(** [hay.includes(needle)]. *)
Fixpoint includes (needle hay : string) : bool :=
  String.prefix needle hay ||
  match hay with
  | EmptyString => false
  | String _ r => includes needle r
  end.

(** White space skipped by [parseInt] (code units 0..255): TAB, LF, VT, FF,
    CR, SP and NBSP. *)
Definition is_white (c : ascii) : bool :=
  let n := code c in
  ((9 <=? n) && (n <=? 13) || (n =? 32) || (n =? 160))%N.

Fixpoint trimStart (s : string) : string :=
  match s with
  | EmptyString => EmptyString
  | String c r => if is_white c then trimStart r else s
  end.

Definition digit (c : ascii) : option Z :=
  let n := code c in
  if ((48 <=? n) && (n <=? 57))%N then Some (Z.of_N n - 48) else None.

(** The digits of the longest prefix of decimal digits. *)
Fixpoint leading_digits (s : string) : list Z :=
  match s with
  | EmptyString => []
  | String c r =>
      match digit c with
      | Some d => d :: leading_digits r
      | None => []
      end
  end.

Definition decimal_value (ds : list Z) : Z :=
  fold_left (fun acc d => 10 * acc + d) ds 0.

(** [parseInt(s, 10)]: leading white space is skipped, one sign is read,
    then the longest run of decimal digits; anything after it is ignored.
    [None] is [NaN].  The integer is exact: a Number is exact below 2^53,
    and rounding above that changes neither [isNaN] nor the sign. *)
Definition parseInt (s : string) : option Z :=
  let t := trimStart s in
  let '(sign, body) :=
    match t with
    | String "-"%char r => (-1, r)
    | String "+"%char r => (1, r)
    | _ => (1, t)
    end in
  match leading_digits body with
  | [] => None
  | ds => Some (sign * decimal_value ds)
  end.

End JS.

(** ** Module constants and the size resolver *)

Definition SORA_API_BASE : string := "https://api.openai.com/v1".

Inductive Orientation := vertical | landscape.

(** Standard video dimensions for orientations. *)
Definition ORIENTATION_SIZES (o : Orientation) : string :=
  match o with
  | vertical => "720x1280"
  | landscape => "1280x720"
  end.

(** Convert orientation to size, or use the provided size; defaults to
    vertical.  Both tests are truthiness tests: [if (orientation)] holds for
    both enum values, [if (size)] fails for [undefined] and for ['']. *)
Definition getVideoSize (orientation : option Orientation) (size : option string) : string :=
  match orientation with
  | Some o => ORIENTATION_SIZES o
  | None =>
      match size with
      | Some s => if JS.truthy s then s else ORIENTATION_SIZES vertical
      | None => ORIENTATION_SIZES vertical
      end
  end.

(** ** MIME detection (create-video, lines 252-260) *)

(** [ext === lit] where [ext] may be [undefined]. *)
Definition ext_is (ext : option string) (lit : string) : bool :=
  match ext with
  | Some e => String.eqb e lit
  | None => false
  end.

Definition extension (filename : string) : option string :=
  JS.pop (JS.split "."%char (JS.toLowerCase filename)).

Definition detectMime (filename : string) : string :=
  let ext := extension filename in
  if ext_is ext "png" then "image/png"
  else if ext_is ext "webp" then "image/webp"
  else if ext_is ext "jpg" || ext_is ext "jpeg" then "image/jpeg"
  else if ext_is ext "mp4" then "video/mp4"
  else if ext_is ext "mov" then "video/quicktime"
  else if ext_is ext "webm" then "video/webm"
  else "image/jpeg".

(** ** Values, errors and the outside world *)

(** A JavaScript value as [JSON.parse] can return it, plus [undefined].  A
    Number is kept as the text [String] gives for it; an object is the finite
    map of its own properties. *)
Inductive JsVal :=
| VUndefined
| VNull
| VBool (b : bool)
| VNum (repr : string)
| VStr (s : string)
| VArr (items : list JsVal)
| VObj (props : gmap string JsVal).

(** The outcome of an operation that can throw; [Throw] carries
    [error.message]. *)
Inductive Result (A : Type) :=
| Ok (a : A)
| Throw (message : string).
Arguments Ok {A} a.
Arguments Throw {A} message.

Definition Buffer : Type := list Byte.byte.

Inductive Method := GET | POST | DELETE.

Record Blob := mkBlob { blob_data : Buffer; blob_type : string }.

(** One entry of a [FormData]. *)
Inductive FormPart :=
| Field (name value : string)
| FilePart (name : string) (blob : Blob) (filename : string).

Inductive Body :=
| NoBody
| TextBody (text : string)
| FormBody (parts : list FormPart).

Record Request := mkRequest {
  req_url : string;
  req_method : Method;
  req_headers : list (string * string);
  req_body : Body
}.

(** What the handlers read of a [Response]. *)
Record Response := mkResponse {
  resp_status : Z;
  resp_text : string;
  resp_json : Result JsVal;
  resp_arrayBuffer : Buffer
}.

(** [response.ok]: the status is in the range 200-299. *)
Definition resp_ok (r : Response) : bool :=
  ((200 <=? resp_status r) && (resp_status r <=? 299))%Z.

Inductive Fit := cover | contain | fill | inside | outside.
Inductive Position := center | pos_top | pos_bottom | pos_left | pos_right.
Record ResizeOptions := mkResizeOptions { fit : Fit; position : Position }.

(** Everything the module reaches outside itself. *)
Record World := mkWorld {
  env_OPENAI_API_KEY : option string;
  env_DOWNLOAD_DIR : option string;
  homedir : string;
  path_resolve : string -> string;
  path_basename : string -> string;
  path_join : string -> string -> string;
  fs_stat : string -> Result unit;
  fs_readFile : string -> Result Buffer;
  fs_mkdir : string -> Result unit;
  fs_writeFile : string -> Buffer -> Result unit;
  (** [sharp(path).resize(width, height, options).toBuffer()] *)
  sharp_resize : string -> Z -> Z -> ResizeOptions -> Result Buffer;
  (** [JSON.stringify(value, null, 2)] and [JSON.stringify(value)] *)
  JSON_stringify_pretty : JsVal -> string;
  JSON_stringify : JsVal -> string;
  (** [new URLSearchParams()] filled by [append], then [toString()] *)
  URLSearchParams_toString : list (string * string) -> string;
  fetch : Request -> Result Response
}.

(** An external call, as logged by a handler. *)
Inductive Event :=
| EvStat (path : string)
| EvSharpResize (path : string) (width height : Z) (options : ResizeOptions)
| EvReadFile (path : string)
| EvFetch (req : Request)
| EvMkdir (dir : string)
| EvWriteFile (path : string) (data : Buffer).

(** ** The handler monad: a log of external calls and a result *)

Definition M (A : Type) : Type := (list Event * Result A)%type.

Definition ret {A : Type} (a : A) : M A := ([], Ok a).

Definition throw {A : Type} (message : string) : M A := ([], Throw message).

Definition bind {A B : Type} (m : M A) (f : A -> M B) : M B :=
  match m with
  | (t, Ok a) => let '(t', r) := f a in ((t ++ t')%list, r)
  | (t, Throw e) => (t, Throw e)
  end.

(** An awaited external call: it is logged, then it returns or throws. *)
Definition perform {A : Type} (e : Event) (r : Result A) : M A := ([e], r).

(** A synchronous computation that may throw. *)
Definition lift {A : Type} (r : Result A) : M A := ([], r).

(** [try { body } catch (error) { handler(error.message) }]. *)
Definition try_catch {A : Type} (body : M A) (handler : string -> M A) : M A :=
  match body with
  | (t, Ok a) => (t, Ok a)
  | (t, Throw e) => let '(t', r) := handler e in ((t ++ t')%list, r)
  end.

Definition trace {A : Type} (m : M A) : list Event := fst m.
Definition result {A : Type} (m : M A) : Result A := snd m.

Notation "'let*' x ':=' m 'in' k" := (bind m (fun x => k))
  (at level 10, x name, m at level 100, k at level 200).

(** ** Reading and printing JSON values *)

(** [statusData.status]: reading a property of [null] or [undefined] throws;
    no built-in prototype defines [status], so every other value gives its own
    property or [undefined]. *)
Definition read_status (statusData : JsVal) : Result JsVal :=
  match statusData with
  | VUndefined => Throw "Cannot read properties of undefined (reading 'status')"
  | VNull => Throw "Cannot read properties of null (reading 'status')"
  | VObj props => Ok (default VUndefined (props !! "status"))
  | _ => Ok VUndefined
  end.

(** [status !== 'completed']. *)
Definition not_completed (status : JsVal) : bool :=
  match status with
  | VStr s => negb (String.eqb s "completed")
  | _ => true
  end.

(** The string a template literal substitutes for a value.  An object parsed
    from JSON with an own [toString] property (never callable) cannot be
    converted; an array joins its elements with commas. *)
Fixpoint ToString (v : JsVal) : Result string :=
  match v with
  | VUndefined => Ok "undefined"
  | VNull => Ok "null"
  | VBool true => Ok "true"
  | VBool false => Ok "false"
  | VNum repr => Ok repr
  | VStr s => Ok s
  | VArr items =>
      (fix join (l : list JsVal) : Result string :=
         match l with
         | [] => Ok EmptyString
         | x :: r =>
             let element :=
               match x with
               | VUndefined | VNull => Ok EmptyString
               | _ => ToString x
               end in
             match element, r with
             | Throw e, _ => Throw e
             | Ok s, [] => Ok s
             | Ok s, _ :: _ =>
                 match join r with
                 | Ok t => Ok (s +:+ "," +:+ t)
                 | Throw e => Throw e
                 end
             end
         end) items
  | VObj props =>
      match props !! "toString" with
      | Some _ => Throw "Cannot convert object to primitive value"
      | None => Ok "[object Object]"
      end
  end.

Fixpoint chars (s : string) : list string :=
  match s with
  | EmptyString => []
  | String c r => String c EmptyString :: chars r
  end.

Definition indexed (l : list JsVal) : gmap string JsVal :=
  list_to_map (imap (fun i v => (JS.string_of_Z (Z.of_nat i), v)) l).

(** The own enumerable properties an object spread [{...data}] copies. *)
Definition own_properties (data : JsVal) : gmap string JsVal :=
  match data with
  | VObj props => props
  | VArr items => indexed items
  | VStr s => indexed (map VStr (chars s))
  | _ => ∅
  end.

(** ** Tool results *)

Inductive ContentBlock := TextBlock (text : string).

(** The value a tool handler returns; [isError] is [false] when the handler
    leaves it out, [structuredContent] is [None] likewise. *)
Record Envelope := mkEnvelope {
  content : list ContentBlock;
  structuredContent : option JsVal;
  isError : bool
}.

Definition success (text : string) (output : JsVal) : Envelope :=
  {| content := [TextBlock text]; structuredContent := Some output; isError := false |}.

Definition failure (text : string) : Envelope :=
  {| content := [TextBlock text]; structuredContent := None; isError := true |}.

(** Get the API key from the environment. *)
Definition getApiKey (w : World) : Result string :=
  match env_OPENAI_API_KEY w with
  | Some apiKey =>
      if JS.truthy apiKey then Ok apiKey
      else Throw "OPENAI_API_KEY environment variable is required"
  | None => Throw "OPENAI_API_KEY environment variable is required"
  end.

(** Get the download directory from the environment or use the default. *)
Definition getDownloadDir (w : World) : string :=
  JS.or_else (env_DOWNLOAD_DIR w) (path_join w (homedir w) "Downloads").

Definition bearer (apiKey : string) : string * string :=
  ("Authorization", "Bearer " +:+ apiKey).

(** The check every handler makes on a response before reading its JSON. *)
Definition check_ok (prefix : string) (response : Response) : M unit :=
  if negb (resp_ok response)
  then throw (prefix +:+ JS.string_of_Z (resp_status response) +:+ " - " +:+ resp_text response)
  else ret tt.

(** ** Tool 1: create-video *)

Definition invalid_format (finalSize : string) : string :=
  "Invalid size format: " +:+ finalSize +:+ ". Expected format: " +:+ JS.dquote
  +:+ "widthxheight" +:+ JS.dquote +:+ " (e.g., " +:+ JS.dquote +:+ "720x1280"
  +:+ JS.dquote +:+ ")".

Definition invalid_dimensions (finalSize : string) : string :=
  "Invalid size dimensions: " +:+ finalSize
  +:+ ". Width and height must be positive numbers.".

(** Parse the video size to get the target dimensions (lines 262-273). *)
Definition parseTargetSize (finalSize : string) : Result (Z * Z) :=
  let sizeParts := JS.split "x"%char finalSize in
  if negb (Nat.eqb (length sizeParts) 2) then Throw (invalid_format finalSize)
  else
    let targetWidth := JS.parseInt (nth 0 sizeParts EmptyString) in
    let targetHeight := JS.parseInt (nth 1 sizeParts EmptyString) in
    match targetWidth, targetHeight with
    | Some width, Some height =>
        if ((width <=? 0) || (height <=? 0))%Z
        then Throw (invalid_dimensions finalSize)
        else Ok (width, height)
    | _, _ => Throw (invalid_dimensions finalSize)
    end.

Definition cover_center : ResizeOptions := {| fit := cover; position := center |}.

(** The [try] block that handles [input_reference] (lines 242-298): the form
    entry to append, or the wrapped failure. *)
Definition prepare_input_reference (w : World) (finalSize input_reference : string)
  : M FormPart :=
  try_catch
    (let filePath := path_resolve w input_reference in
     let* _ := perform (EvStat filePath) (fs_stat w filePath) in
     let filename := path_basename w filePath in
     let mimeType := detectMime filename in
     let* target := lift (parseTargetSize finalSize) in
     let '(targetWidth, targetHeight) := target in
     if JS.startsWith mimeType "image/" then
       let* resizedBuffer :=
         perform (EvSharpResize filePath targetWidth targetHeight cover_center)
                 (sharp_resize w filePath targetWidth targetHeight cover_center) in
       ret (FilePart "input_reference" (mkBlob resizedBuffer mimeType) filename)
     else
       let* fileBuffer := perform (EvReadFile filePath) (fs_readFile w filePath) in
       ret (FilePart "input_reference" (mkBlob fileBuffer mimeType) filename))
    (fun errorMessage =>
       throw ("Failed to process input_reference file: " +:+ errorMessage)).

Record CreateVideoArgs := mkCreateVideoArgs {
  cv_prompt : string;
  cv_model : option string;
  cv_seconds : option string;
  cv_orientation : option Orientation;
  cv_size : option string;
  cv_input_reference : option string
}.

Definition create_request (apiKey : string) (formData : list FormPart) : Request :=
  {| req_url := SORA_API_BASE +:+ "/videos";
     req_method := POST;
     req_headers := [bearer apiKey];
     req_body := FormBody formData |}.

(** The four [formData.append] calls that precede the reference file. *)
Definition text_fields (a : CreateVideoArgs) (finalSize : string) : list FormPart :=
  [ Field "model" (JS.default_arg (cv_model a) "sora-2");
    Field "prompt" (cv_prompt a);
    Field "seconds" (JS.default_arg (cv_seconds a) "4");
    Field "size" finalSize ].

(** [if (input_reference) { ... }] (lines 240-299): the form with the
    reference file appended, the form as it was when no reference is given. *)
Definition handle_input_reference (w : World) (a : CreateVideoArgs)
           (finalSize : string) (formData : list FormPart) : M (list FormPart) :=
  match cv_input_reference a with
  | Some input_reference =>
      if JS.truthy input_reference then
        let* part := prepare_input_reference w finalSize input_reference in
        ret (formData ++ [part])%list
      else ret formData
  | None => ret formData
  end.

Definition create_video (w : World) (a : CreateVideoArgs) : M Envelope :=
  try_catch
    (let* apiKey := lift (getApiKey w) in
     let finalSize := getVideoSize (cv_orientation a) (cv_size a) in
     let formData := text_fields a finalSize in
     let* formData := handle_input_reference w a finalSize formData in
     let* response :=
       perform (EvFetch (create_request apiKey formData))
               (fetch w (create_request apiKey formData)) in
     let* _ := check_ok "Sora API error: " response in
     let* output := lift (resp_json response) in
     ret (success (JSON_stringify_pretty w output) output))
    (fun errorMessage => ret (failure ("Error creating video: " +:+ errorMessage))).

(** ** Tool 2: remix-video *)

Definition remix_request (w : World) (apiKey video_id prompt : string) : Request :=
  {| req_url := SORA_API_BASE +:+ "/videos/" +:+ video_id +:+ "/remix";
     req_method := POST;
     req_headers := [bearer apiKey; ("Content-Type", "application/json")];
     req_body := TextBody (JSON_stringify w (VObj {[ "prompt" := VStr prompt ]})) |}.

Definition remix_video (w : World) (video_id prompt : string) : M Envelope :=
  try_catch
    (let* apiKey := lift (getApiKey w) in
     let* response :=
       perform (EvFetch (remix_request w apiKey video_id prompt))
               (fetch w (remix_request w apiKey video_id prompt)) in
     let* _ := check_ok "Sora API error: " response in
     let* output := lift (resp_json response) in
     ret (success (JSON_stringify_pretty w output) output))
    (fun errorMessage => ret (failure ("Error remixing video: " +:+ errorMessage))).

(** ** Tool 3: get-video-status *)

(** [GET /videos/{id}]: the request of get-video-status, and the status check
    of download-video and save-video. *)
Definition status_request (apiKey video_id : string) : Request :=
  {| req_url := SORA_API_BASE +:+ "/videos/" +:+ video_id;
     req_method := GET;
     req_headers := [bearer apiKey];
     req_body := NoBody |}.

Definition get_video_status (w : World) (video_id : string) : M Envelope :=
  try_catch
    (let* apiKey := lift (getApiKey w) in
     let* response :=
       perform (EvFetch (status_request apiKey video_id))
               (fetch w (status_request apiKey video_id)) in
     let* _ := check_ok "Sora API error: " response in
     let* output := lift (resp_json response) in
     ret (success (JSON_stringify_pretty w output) output))
    (fun errorMessage => ret (failure ("Error getting video status: " +:+ errorMessage))).

(** ** Tool 4: list-videos *)

Inductive Order := asc | desc.

Definition order_name (o : Order) : string :=
  match o with
  | asc => "asc"
  | desc => "desc"
  end.

(** [lv_limit] is the Number as [String(limit)] prints it. *)
Record ListVideosArgs := mkListVideosArgs {
  lv_limit : option string;
  lv_after : option string;
  lv_order : option Order
}.

Definition list_params (a : ListVideosArgs) : list (string * string) :=
  ([("limit", JS.default_arg (lv_limit a) "20")]
   ++ (match lv_after a with
       | Some after => if JS.truthy after then [("after", after)] else []
       | None => []
       end)
   ++ [("order", order_name (JS.default_arg (lv_order a) desc))])%list.

Definition list_request (w : World) (apiKey : string) (a : ListVideosArgs) : Request :=
  {| req_url := SORA_API_BASE +:+ "/videos?" +:+ URLSearchParams_toString w (list_params a);
     req_method := GET;
     req_headers := [bearer apiKey];
     req_body := NoBody |}.

Definition list_videos (w : World) (a : ListVideosArgs) : M Envelope :=
  try_catch
    (let* apiKey := lift (getApiKey w) in
     let* response :=
       perform (EvFetch (list_request w apiKey a)) (fetch w (list_request w apiKey a)) in
     let* _ := check_ok "Sora API error: " response in
     let* output := lift (resp_json response) in
     ret (success (JSON_stringify_pretty w output) output))
    (fun errorMessage => ret (failure ("Error listing videos: " +:+ errorMessage))).

(** ** Tool 5: download-video *)

Definition content_url (video_id : string) : string :=
  SORA_API_BASE +:+ "/videos/" +:+ video_id +:+ "/content".

Definition curl_command (apiKey downloadUrl video_id : string) : string :=
  "curl -H " +:+ JS.dquote +:+ "Authorization: Bearer " +:+ apiKey +:+ JS.dquote
  +:+ " " +:+ JS.dquote +:+ downloadUrl +:+ JS.dquote
  +:+ " -o " +:+ JS.dquote +:+ video_id +:+ ".mp4" +:+ JS.dquote.

Definition not_ready_message (status : string) : string :=
  "Video is not ready yet. Current status: " +:+ status.

Definition download_video (w : World) (video_id : string) (variant : option string)
  : M Envelope :=
  try_catch
    (let* apiKey := lift (getApiKey w) in
     let* statusResponse :=
       perform (EvFetch (status_request apiKey video_id))
               (fetch w (status_request apiKey video_id)) in
     let* _ := check_ok "Sora API error: " statusResponse in
     let* statusData := lift (resp_json statusResponse) in
     let* status := lift (read_status statusData) in
     if not_completed status then
       let* shown := lift (ToString status) in
       let output := VObj {[
         "video_id" := VStr video_id;
         "status" := status;
         "message" := VStr (not_ready_message shown);
         "download_instructions" := VStr "Video is not ready for download yet.";
         "curl_command" := VStr EmptyString ]} in
       ret (success (JSON_stringify_pretty w output) output)
     else
       let params :=
         match variant with
         | Some v => if JS.truthy v then "?variant=" +:+ v else EmptyString
         | None => EmptyString
         end in
       let downloadUrl := content_url video_id +:+ params in
       let curlCommand := curl_command apiKey downloadUrl video_id in
       let output := VObj {[
         "video_id" := VStr video_id;
         "status" := VStr "completed";
         "message" := VStr "Video is ready for download! Use the curl command below to download it.";
         "download_instructions" := VStr "The video requires authentication. Use the provided curl command or add Authorization header with your API key.";
         "curl_command" := VStr curlCommand ]} in
       ret (success
              ("Video " +:+ video_id +:+ " is ready for download!" +:+ JS.newline
               +:+ JS.newline +:+ "To download the video, run this command in your terminal:"
               +:+ JS.newline +:+ JS.newline +:+ curlCommand +:+ JS.newline +:+ JS.newline
               +:+ "This will save the video as " +:+ JS.dquote +:+ video_id +:+ ".mp4"
               +:+ JS.dquote +:+ " in your current directory.")
              output))
    (fun errorMessage => ret (failure ("Error preparing video download: " +:+ errorMessage))).

(** ** Tool 6: save-video *)

Record SaveVideoArgs := mkSaveVideoArgs {
  sv_video_id : string;
  sv_output_path : option string;
  sv_filename : option string
}.

Definition content_request (apiKey video_id : string) : Request :=
  {| req_url := content_url video_id;
     req_method := GET;
     req_headers := [bearer apiKey];
     req_body := NoBody |}.

Definition save_video (w : World) (a : SaveVideoArgs) : M Envelope :=
  let video_id := sv_video_id a in
  try_catch
    (let* apiKey := lift (getApiKey w) in
     let* statusResponse :=
       perform (EvFetch (status_request apiKey video_id))
               (fetch w (status_request apiKey video_id)) in
     let* _ := check_ok "Sora API error: " statusResponse in
     let* statusData := lift (resp_json statusResponse) in
     let* status := lift (read_status statusData) in
     if not_completed status then
       let* shown := lift (ToString status) in
       let output := VObj {[
         "video_id" := VStr video_id;
         "status" := status;
         "file_path" := VStr EmptyString;
         "message" := VStr (not_ready_message shown) ]} in
       ret (success (JSON_stringify_pretty w output) output)
     else
       let* videoResponse :=
         perform (EvFetch (content_request apiKey video_id))
                 (fetch w (content_request apiKey video_id)) in
       let* _ := check_ok "Failed to download video: " videoResponse in
       let videoBuffer := resp_arrayBuffer videoResponse in
       let saveDir :=
         match sv_output_path a with
         | Some output_path =>
             if JS.truthy output_path then path_resolve w output_path
             else getDownloadDir w
         | None => getDownloadDir w
         end in
       let saveFilename := JS.or_else (sv_filename a) (video_id +:+ ".mp4") in
       let fullPath := path_join w saveDir saveFilename in
       let* _ := perform (EvMkdir saveDir) (fs_mkdir w saveDir) in
       let* _ := perform (EvWriteFile fullPath videoBuffer) (fs_writeFile w fullPath videoBuffer) in
       let output := VObj {[
         "video_id" := VStr video_id;
         "status" := VStr "saved";
         "file_path" := VStr fullPath;
         "message" := VStr ("Video saved successfully to " +:+ fullPath) ]} in
       ret (success
              ("✅ Video downloaded successfully!" (* the check mark as UTF-8 bytes *) +:+ JS.newline +:+ JS.newline
               +:+ "Saved to: " +:+ fullPath +:+ JS.newline +:+ JS.newline
               +:+ "You can now open and watch your video!")
              output))
    (fun errorMessage => ret (failure ("Error saving video: " +:+ errorMessage))).

(** ** Tool 7: delete-video *)

Definition delete_request (apiKey video_id : string) : Request :=
  {| req_url := SORA_API_BASE +:+ "/videos/" +:+ video_id;
     req_method := DELETE;
     req_headers := [bearer apiKey];
     req_body := NoBody |}.

Definition deleted_message (video_id : string) : string :=
  "Successfully deleted video " +:+ video_id.

(** [{ id: video_id, deleted: true, message: ..., ...data }]: the spread comes
    last, so a property of [data] replaces the literal one of the same name. *)
Definition delete_output (video_id : string) (data : JsVal) : gmap string JsVal :=
  own_properties data ∪
  {[ "id" := VStr video_id;
     "deleted" := VBool true;
     "message" := VStr (deleted_message video_id) ]}.

Definition delete_video (w : World) (video_id : string) : M Envelope :=
  try_catch
    (let* apiKey := lift (getApiKey w) in
     let* response :=
       perform (EvFetch (delete_request apiKey video_id))
               (fetch w (delete_request apiKey video_id)) in
     let* _ := check_ok "Sora API error: " response in
     let* data := lift (resp_json response) in
     let output := VObj (delete_output video_id data) in
     ret (success (JSON_stringify_pretty w output) output))
    (fun errorMessage => ret (failure ("Error deleting video: " +:+ errorMessage))).

(** ** The registered tools *)

Inductive ToolCall :=
| CreateVideo (a : CreateVideoArgs)
| RemixVideo (video_id prompt : string)
| GetVideoStatus (video_id : string)
| ListVideos (a : ListVideosArgs)
| DownloadVideo (video_id : string) (variant : option string)
| SaveVideo (a : SaveVideoArgs)
| DeleteVideo (video_id : string).

(** The handler [registerTools] registers under each of the seven names. *)
Definition call_tool (w : World) (c : ToolCall) : M Envelope :=
  match c with
  | CreateVideo a => create_video w a
  | RemixVideo video_id prompt => remix_video w video_id prompt
  | GetVideoStatus video_id => get_video_status w video_id
  | ListVideos a => list_videos w a
  | DownloadVideo video_id variant => download_video w video_id variant
  | SaveVideo a => save_video w a
  | DeleteVideo video_id => delete_video w video_id
  end.

(** ** The specification's wording *)

(** [s] has no occurrence of the character [c]. *)
Fixpoint free_of (c : ascii) (s : string) : bool :=
  match s with
  | EmptyString => true
  | String d r => negb (Ascii.eqb d c) && free_of c r
  end.

(** The table of the media preparer as the specification lists it. *)
Definition MIME_TABLE : list (string * string) :=
  [ ("png", "image/png"); ("webp", "image/webp"); ("jpg", "image/jpeg");
    ("jpeg", "image/jpeg"); ("mp4", "video/mp4"); ("mov", "video/quicktime");
    ("webm", "video/webm") ].

Fixpoint assoc (key : string) (table : list (string * string)) : option string :=
  match table with
  | [] => None
  | (k, v) :: rest => if String.eqb key k then Some v else assoc key rest
  end.

(** Table lookup with [image/jpeg] for every extension the table lacks. *)
Definition mime_of_extension (ext : string) : string :=
  default "image/jpeg" (assoc ext MIME_TABLE).

(** The size resolver as the specification words it: an orientation wins, else
    a supplied size string is returned verbatim, else the vertical default. *)
Definition resolve_as_stated (orientation : option Orientation) (size : option string)
  : string :=
  match orientation, size with
  | Some vertical, _ => "720x1280"
  | Some landscape, _ => "1280x720"
  | None, Some s => s
  | None, None => "720x1280"
  end.

Fixpoint all_digits (s : string) : bool :=
  match s with
  | EmptyString => true
  | String c r => match JS.digit c with Some _ => all_digits r | None => false end
  end.

(** A positive integer token: decimal digits only, at least one, value above 0. *)
Definition positive_integer_token (t : string) : bool :=
  JS.truthy t && all_digits t && (0 <? JS.decimal_value (JS.leading_digits t)).

(** A size string that splits on [x] into exactly two positive integer tokens. *)
Definition conforming_size (s : string) : bool :=
  match JS.split "x"%char s with
  | [a; b] => positive_integer_token a && positive_integer_token b
  | _ => false
  end.

(** The sizes the handler's own parse refuses: not exactly two pieces, a piece
    [parseInt] cannot read, or a parsed value that is zero or negative. *)
Definition size_rejected (s : string) : Prop :=
  match JS.split "x"%char s with
  | [a; b] =>
      match JS.parseInt a, JS.parseInt b with
      | Some width, Some height => width <= 0 \/ height <= 0
      | _, _ => True
      end
  | _ => True
  end.

(** Modelled from the spec: [sharp] is an external library.  The
    specification (4.2, step 4) has a cover resize produce an image of exactly
    the requested width and height; [image_size] stands for the pixel
    dimensions an image decoder reports for a buffer. *)
Definition sharp_cover_contract (image_size : Buffer -> option (Z * Z)) (w : World)
  : Prop :=
  forall path width height buf,
    sharp_resize w path width height cover_center = Ok buf ->
    image_size buf = Some (width, height).

Definition fetched {A : Type} (m : M A) (req : Request) : Prop :=
  In (EvFetch req) (trace m).

Definition resize_attempted {A : Type} (m : M A) : Prop :=
  exists path width height options,
    In (EvSharpResize path width height options) (trace m).

(** A property of the structured content, when it is an object. *)
Definition field (e : Envelope) (key : string) : option JsVal :=
  match structuredContent e with
  | Some (VObj props) => props !! key
  | _ => None
  end.

(** The size check of create-video as the specification words it: with a
    reference file and a size that is not conforming, nothing is resized and
    the caller gets an error envelope. *)
Definition validation_as_stated (w : World) (a : CreateVideoArgs) : Prop :=
  forall input_reference,
    cv_input_reference a = Some input_reference ->
    conforming_size (getVideoSize (cv_orientation a) (cv_size a)) = false ->
    ~ resize_attempted (create_video w a) /\
    exists env, result (create_video w a) = Ok env /\ isError env = true.

(** The merge of delete-video as the specification words it: after a
    successful response the output has [deleted: true], the id, a message and
    every property of the remote JSON. *)
Definition merge_as_stated (w : World) (video_id : string) : Prop :=
  forall apiKey response data,
    getApiKey w = Ok apiKey ->
    fetch w (delete_request apiKey video_id) = Ok response ->
    resp_ok response = true ->
    resp_json response = Ok data ->
    exists env,
      result (delete_video w video_id) = Ok env /\
      field env "deleted" = Some (VBool true) /\
      field env "id" = Some (VStr video_id) /\
      field env "message" = Some (VStr (deleted_message video_id)) /\
      forall key value,
        own_properties data !! key = Some value -> field env key = Some value.

(** The handler returns an envelope, and a response that is not [ok] makes
    that envelope an error naming the status code and the body text. *)
Definition reports_failures (w : World) (m : M Envelope) : Prop :=
  (exists env, result m = Ok env) /\
  forall req resp,
    fetched m req -> fetch w req = Ok resp -> resp_ok resp = false ->
    exists env text,
      result m = Ok env /\ isError env = true /\ content env = [TextBlock text] /\
      JS.includes (JS.string_of_Z (resp_status resp)) text = true /\
      JS.includes (resp_text resp) text = true.

(** ** A small world to run the handlers in *)

Module Demo.

Definition resolve (p : string) : string :=
  if String.prefix "/" p then p else "/work/" +:+ p.

Definition basename (p : string) : string :=
  default EmptyString (JS.pop (JS.split "/"%char p)).

Definition join (a b : string) : string := a +:+ "/" +:+ b.

Definition clip_bytes : Buffer := [Byte.x00; Byte.x00; Byte.x00; Byte.x18; Byte.x66].
Definition portrait_jpeg : Buffer := [Byte.xff; Byte.xd8; Byte.x01].
Definition wide_jpeg : Buffer := [Byte.xff; Byte.xd8; Byte.x02].

Definition no_entry (call p : string) : string :=
  "ENOENT: no such file or directory, " +:+ call +:+ " '" +:+ p +:+ "'".

Definition stat (p : string) : Result unit :=
  if String.eqb p "/work/cat.png" || String.eqb p "/work/clip.mp4" then Ok tt
  else Throw (no_entry "stat" p).

Definition readFile (p : string) : Result Buffer :=
  if String.eqb p "/work/clip.mp4" then Ok clip_bytes
  else Throw (no_entry "open" p).

Definition resize (p : string) (width height : Z) (o : ResizeOptions) : Result Buffer :=
  if String.eqb p "/work/cat.png" then
    if (width =? 720) && (height =? 1280) then Ok portrait_jpeg
    else if (width =? 1280) && (height =? 720) then Ok wide_jpeg
    else Throw "Processed image is too large for this world"
  else Throw "Input file is missing or of an unsupported image format".

Definition size_of (b : Buffer) : option (Z * Z) :=
  match b with
  | [Byte.xff; Byte.xd8; Byte.x01] => Some (720, 1280)
  | [Byte.xff; Byte.xd8; Byte.x02] => Some (1280, 720)
  | _ => None
  end.

Definition query (params : list (string * string)) : string :=
  fold_right (fun kv acc => fst kv +:+ "=" +:+ snd kv +:+ "&" +:+ acc) EmptyString params.

Definition answer (status : Z) (text : string) (json : Result JsVal) : Result Response :=
  Ok {| resp_status := status; resp_text := text; resp_json := json;
        resp_arrayBuffer := clip_bytes |}.

Definition job (id status : string) : Result JsVal :=
  Ok (VObj {[ "id" := VStr id; "status" := VStr status ]}).

Definition not_found : Result Response :=
  answer 404 "Video not found" (Throw "Unexpected token V in JSON at position 0").

Definition videos : string := SORA_API_BASE +:+ "/videos".

(** A remote service with a running job [abc123], a finished job [done1], a
    job [xyz] it deletes and a job [kept] it declines to delete. *)
Definition remote (req : Request) : Result Response :=
  let url := req_url req in
  match req_method req with
  | POST =>
      if String.eqb url videos then answer 200 "created" (job "video_1" "queued")
      else not_found
  | GET =>
      if String.eqb url (videos +:+ "/abc123") then answer 200 "job" (job "abc123" "in_progress")
      else if String.eqb url (videos +:+ "/done1") then answer 200 "job" (job "done1" "completed")
      else not_found
  | DELETE =>
      if String.eqb url (videos +:+ "/xyz") then
        answer 200 "deleted"
          (Ok (VObj {[ "id" := VStr "xyz"; "object" := VStr "video.deleted";
                       "deleted" := VBool true ]}))
      else if String.eqb url (videos +:+ "/kept") then
        answer 200 "kept" (Ok (VObj {[ "id" := VStr "kept"; "deleted" := VBool false ]}))
      else not_found
  end.

Definition world : World :=
  {| env_OPENAI_API_KEY := Some "sk-test";
     env_DOWNLOAD_DIR := None;
     homedir := "/home/u";
     path_resolve := resolve;
     path_basename := basename;
     path_join := join;
     fs_stat := stat;
     fs_readFile := readFile;
     fs_mkdir := fun _ => Ok tt;
     fs_writeFile := fun _ _ => Ok tt;
     sharp_resize := resize;
     JSON_stringify_pretty := fun _ => "{}";
     JSON_stringify := fun _ => "{}";
     URLSearchParams_toString := query;
     fetch := remote |}.

Definition create (size : option string) (input_reference : option string)
  : CreateVideoArgs :=
  {| cv_prompt := "a cat"; cv_model := None; cv_seconds := None;
     cv_orientation := None; cv_size := size;
     cv_input_reference := input_reference |}.

End Demo.

(** ** Reading the handlers' logs and envelopes *)

(** The prefix each handler's [catch] puts in front of the error message. *)
Definition error_label (c : ToolCall) : string :=
  match c with
  | CreateVideo _ => "Error creating video: "
  | RemixVideo _ _ => "Error remixing video: "
  | GetVideoStatus _ => "Error getting video status: "
  | ListVideos _ => "Error listing videos: "
  | DownloadVideo _ _ => "Error preparing video download: "
  | SaveVideo _ => "Error saving video: "
  | DeleteVideo _ => "Error deleting video: "
  end.

(** The requests of a log, in order. *)
Fixpoint requests (t : list Event) : list Request :=
  match t with
  | [] => []
  | EvFetch req :: rest => req :: requests rest
  | _ :: rest => requests rest
  end.

(** save-video, lines 654-657: where the downloaded bytes go. *)
Definition save_dir (w : World) (a : SaveVideoArgs) : string :=
  match sv_output_path a with
  | Some output_path =>
      if JS.truthy output_path then path_resolve w output_path else getDownloadDir w
  | None => getDownloadDir w
  end.

Definition save_filename (a : SaveVideoArgs) : string :=
  JS.or_else (sv_filename a) (sv_video_id a +:+ ".mp4").

Definition save_path (w : World) (a : SaveVideoArgs) : string :=
  path_join w (save_dir w a) (save_filename a).

(** The same world with another process environment. *)
Definition with_environment (key dir : option string) (w : World) : World :=
  {| env_OPENAI_API_KEY := key;
     env_DOWNLOAD_DIR := dir;
     homedir := homedir w;
     path_resolve := path_resolve w;
     path_basename := path_basename w;
     path_join := path_join w;
     fs_stat := fs_stat w;
     fs_readFile := fs_readFile w;
     fs_mkdir := fs_mkdir w;
     fs_writeFile := fs_writeFile w;
     sharp_resize := sharp_resize w;
     JSON_stringify_pretty := JSON_stringify_pretty w;
     JSON_stringify := JSON_stringify w;
     URLSearchParams_toString := URLSearchParams_toString w;
     fetch := fetch w |}.

(** The same world with another remote service. *)
Definition with_fetch (remote : Request -> Result Response) (w : World) : World :=
  {| env_OPENAI_API_KEY := env_OPENAI_API_KEY w;
     env_DOWNLOAD_DIR := env_DOWNLOAD_DIR w;
     homedir := homedir w;
     path_resolve := path_resolve w;
     path_basename := path_basename w;
     path_join := path_join w;
     fs_stat := fs_stat w;
     fs_readFile := fs_readFile w;
     fs_mkdir := fs_mkdir w;
     fs_writeFile := fs_writeFile w;
     sharp_resize := sharp_resize w;
     JSON_stringify_pretty := JSON_stringify_pretty w;
     JSON_stringify := JSON_stringify w;
     URLSearchParams_toString := URLSearchParams_toString w;
     fetch := remote |}.

(** The demo world with a remote service that also serves the bytes of the
    finished job [done1], and answers [null] for the job [void]. *)
Module Studio.

Definition movie : Response :=
  {| resp_status := 200; resp_text := "";
     resp_json := Throw "Unexpected end of JSON input";
     resp_arrayBuffer := Demo.clip_bytes |}.

Definition nothing : Response :=
  {| resp_status := 200; resp_text := "null"; resp_json := Ok VNull;
     resp_arrayBuffer := [] |}.

Definition remote (req : Request) : Result Response :=
  if String.eqb (req_url req) (Demo.videos +:+ "/done1/content") then
    match req_method req with
    | GET => Ok movie
    | _ => Demo.remote req
    end
  else if String.eqb (req_url req) (Demo.videos +:+ "/void") then Ok nothing
  else Demo.remote req.

Definition world : World := with_fetch remote Demo.world.

Definition save (output_path filename : option string) : SaveVideoArgs :=
  {| sv_video_id := "done1"; sv_output_path := output_path; sv_filename := filename |}.

End Studio.

(** ** server-setup.ts and the HTTP entry point *)

(** [process.env[key]] is falsy when the variable is unset or empty. *)
Definition env_truthy (env : gmap string string) (key : string) : bool :=
  match env !! key with
  | Some value => JS.truthy value
  | None => false
  end.

(** The body of the loop over [Object.entries(parsed)] (lines 18-22). *)
Definition set_if_unset (env : gmap string string) (entry : string * string)
  : gmap string string :=
  if env_truthy env (fst entry) then env else <[fst entry := snd entry]> env.

(** Lines 13-26.  [file] is [None] when [.env] does not exist; otherwise it
    is what reading and parsing it gives: the entries of the parsed object, in
    order, or the error the silent [catch] swallows. *)
Definition load_dotenv (file : option (Result (list (string * string))))
           (env : gmap string string) : gmap string string :=
  match file with
  | Some (Ok parsed) => fold_left set_if_unset parsed env
  | Some (Throw _) => env
  | None => env
  end.

Definition TOOL_NAMES : list string :=
  [ "create-video"; "remix-video"; "get-video-status"; "list-videos";
    "download-video"; "save-video"; "delete-video" ].

(** What [createServer] does: the process exits with a code after a line on
    standard error, or a server with its registered tools is returned. *)
Inductive Startup :=
| Exit (code : Z) (stderr : string)
| Serve (name version : string) (tools : list string).

Definition createServer (env : gmap string string) : Startup :=
  if negb (env_truthy env "OPENAI_API_KEY")
  then Exit 1 "Error: OPENAI_API_KEY environment variable is required"
  else Serve "sora-mcp-server" "1.0.0" TOOL_NAMES.



(** The handlers read the same [process.env]. *)
Definition runs_in (env : gmap string string) (w : World) : Prop :=
  env_OPENAI_API_KEY w = env !! "OPENAI_API_KEY" /\
  env_DOWNLOAD_DIR w = env !! "DOWNLOAD_DIR".

(** * Properties *)

(** ** Strings *)

Lemma append_cons (c : ascii) (a b : string) : String c a +:+ b = String c (a +:+ b).
Proof. reflexivity. Qed.

Lemma append_empty_l (s : string) : "" +:+ s = s.
Proof. reflexivity. Qed.

Lemma append_assoc (a b c : string) : (a +:+ b) +:+ c = a +:+ (b +:+ c).
Proof.
  induction a as [|x a IH]; [reflexivity |].
  now rewrite !append_cons, IH.
Qed.

Lemma append_empty_r (s : string) : s +:+ "" = s.
Proof.
  induction s as [|c s IH]; [reflexivity |].
  now rewrite append_cons, IH.
Qed.

Lemma prefix_append (p s : string) : String.prefix p (p +:+ s) = true.
Proof.
  induction p as [|c p IH].
  - rewrite append_empty_l. now destruct s.
  - rewrite append_cons. simpl.
    destruct (ascii_dec c c) as [_|Hne]; [exact IH | now elim Hne].
Qed.

Lemma includes_here (needle post : string) : JS.includes needle (needle +:+ post) = true.
Proof.
  pose proof (prefix_append needle post) as H.
  destruct (needle +:+ post); cbn [JS.includes]; now rewrite H.
Qed.

Lemma includes_append (needle pre post : string) :
  JS.includes needle (pre +:+ needle +:+ post) = true.
Proof.
  induction pre as [|c pre IH].
  - rewrite append_empty_l. apply includes_here.
  - rewrite append_cons. cbn [JS.includes]. rewrite IH. apply orb_true_r.
Qed.

Lemma includes_intro (needle hay pre post : string) :
  hay = pre +:+ needle +:+ post -> JS.includes needle hay = true.
Proof. intros ->. apply includes_append. Qed.

Lemma pop_snoc (init : list string) (last : string) :
  JS.pop (init ++ [last]) = Some last.
Proof.
  induction init as [|h init IH]; [reflexivity |].
  simpl. destruct (init ++ [last]) eqn:E; [now destruct init | exact IH].
Qed.

(** A split ends with the text after the last separator; there are earlier
    pieces exactly when the string contains the separator. *)
Lemma split_shape (sep : ascii) (s : string) :
  exists init last,
    JS.split sep s = (init ++ [last])%list /\ free_of sep last = true /\
    (init = [] -> s = last) /\ (init <> [] -> exists stem, s = stem +:+ String sep last).
Proof.
  induction s as [|c s (init & last & Hsplit & Hfree & Hnil & Hcons)].
  - exists [], EmptyString. split; [reflexivity | split; [reflexivity | split]].
    + reflexivity.
    + congruence.
  - cbn [JS.split]. rewrite Hsplit. destruct (Ascii.eqb c sep) eqn:Ec.
    + apply Ascii.eqb_eq in Ec. subst c.
      exists (EmptyString :: init), last.
      split; [reflexivity | split; [exact Hfree | split; [discriminate |]]].
      intros _. destruct init as [|h init].
      * exists EmptyString. now rewrite (Hnil eq_refl).
      * destruct Hcons as (stem & ->); [discriminate |].
        exists (String sep stem). reflexivity.
    + destruct init as [|h init].
      * exists [], (String c last). cbn [app free_of].
        rewrite Ec, Hfree, (Hnil eq_refl).
        split; [reflexivity | split; [reflexivity | split; congruence]].
      * exists (String c h :: init), last.
        split; [reflexivity | split; [exact Hfree | split; [discriminate |]]].
        intros _. destruct Hcons as (stem & ->); [discriminate |].
        exists (String c stem). reflexivity.
Qed.

Lemma pop_split (sep : ascii) (s : string) :
  exists last,
    JS.pop (JS.split sep s) = Some last /\ free_of sep last = true /\
    (s = last \/ exists stem, s = stem +:+ String sep last).
Proof.
  destruct (split_shape sep s) as (init & last & Hsplit & Hfree & Hnil & Hcons).
  exists last. rewrite Hsplit, pop_snoc.
  split; [reflexivity | split; [exact Hfree |]].
  destruct init; [left; now apply Hnil | right; now apply Hcons].
Qed.

Lemma toLowerCase_append (a b : string) :
  JS.toLowerCase (a +:+ b) = JS.toLowerCase a +:+ JS.toLowerCase b.
Proof.
  induction a as [|c a IH]; [reflexivity |].
  rewrite append_cons. cbn [JS.toLowerCase]. now rewrite IH, append_cons.
Qed.

Lemma split_nonempty (sep : ascii) (s : string) : JS.split sep s <> [].
Proof.
  destruct s as [|c s]; cbn [JS.split]; [discriminate |].
  destruct (Ascii.eqb c sep); [discriminate |].
  destruct (JS.split sep s); discriminate.
Qed.

Lemma split_free (sep : ascii) (u : string) :
  free_of sep u = true -> JS.split sep u = [u].
Proof.
  induction u as [|d u IH]; [reflexivity |].
  cbn [free_of JS.split]. intros H. apply andb_prop in H as [Hd Hu].
  apply negb_true_iff in Hd. now rewrite Hd, (IH Hu).
Qed.

Lemma split_append (sep : ascii) (a b : string) :
  JS.split sep (a +:+ String sep b) = (JS.split sep a ++ JS.split sep b)%list.
Proof.
  induction a as [|c a IH].
  - rewrite append_empty_l. cbn [JS.split]. now rewrite Ascii.eqb_refl.
  - rewrite append_cons. cbn [JS.split]. rewrite IH.
    destruct (Ascii.eqb c sep); [reflexivity |].
    destruct (JS.split sep a) eqn:E; [now apply split_nonempty in E | reflexivity].
Qed.

(** ** The built-ins on known inputs *)

Example parseInt_examples :
  JS.parseInt "720" = Some 720 /\ JS.parseInt "1280abc" = Some 1280 /\
  JS.parseInt " 12px" = Some 12 /\ JS.parseInt "-5" = Some (-5) /\
  JS.parseInt "7.5" = Some 7 /\ JS.parseInt "0" = Some 0 /\
  JS.parseInt "abc" = None /\ JS.parseInt "" = None /\ JS.parseInt "- 5" = None.
Proof. repeat split; reflexivity. Qed.

Example split_examples :
  JS.split "x" "720x1280" = ["720"; "1280"] /\ JS.split "x" "720X1280" = ["720X1280"] /\
  JS.split "x" "" = [""] /\ JS.split "x" "x" = [""; ""] /\
  JS.split "x" "1x2x3" = ["1"; "2"; "3"].
Proof. repeat split; reflexivity. Qed.

Example detectMime_examples :
  detectMime "Photo.PNG" = "image/png" /\ detectMime "clip.final.MOV" = "video/quicktime" /\
  detectMime "notes.txt" = "image/jpeg" /\ detectMime "archive." = "image/jpeg" /\
  detectMime "mp4" = "video/mp4".
Proof. repeat split; reflexivity. Qed.

Example parseTargetSize_examples :
  parseTargetSize "720x1280" = Ok (720, 1280) /\
  parseTargetSize "1280" = Throw (invalid_format "1280") /\
  parseTargetSize "widexhigh" = Throw (invalid_dimensions "widexhigh") /\
  parseTargetSize "0x720" = Throw (invalid_dimensions "0x720") /\
  parseTargetSize "720x-1" = Throw (invalid_dimensions "720x-1").
Proof. repeat split; reflexivity. Qed.

(** ** Running a handler *)

Ltac run :=
  cbn [bind lift perform try_catch ret throw fst snd trace result app negb
       content structuredContent isError success failure field] in *.

(** The message of an [Error] thrown for a response that is not [ok] names
    both the status code and the body text. *)
Lemma check_ok_throws (prefix : string) (response : Response) :
  resp_ok response = false ->
  check_ok prefix response
  = throw (prefix +:+ JS.string_of_Z (resp_status response) +:+ " - " +:+ resp_text response).
Proof. intros H. unfold check_ok. now rewrite H. Qed.

Lemma check_ok_passes (prefix : string) (response : Response) :
  resp_ok response = true -> check_ok prefix response = ret tt.
Proof. intros H. unfold check_ok. now rewrite H. Qed.

Lemma reported (label prefix : string) (response : Response) :
  let text := label +:+ prefix +:+ JS.string_of_Z (resp_status response)
              +:+ " - " +:+ resp_text response in
  JS.includes (JS.string_of_Z (resp_status response)) text = true /\
  JS.includes (resp_text response) text = true.
Proof.
  cbv zeta. split.
  - apply includes_intro with (pre := label +:+ prefix) (post := " - " +:+ resp_text response).
    now rewrite !append_assoc.
  - apply includes_intro
      with (pre := label +:+ prefix +:+ JS.string_of_Z (resp_status response) +:+ " - ")
           (post := "").
    now rewrite !append_assoc, append_empty_r.
Qed.

(** ** Non-success responses (all seven tools) *)

Ltac fetched_cases H :=
  unfold fetched in H; run; simpl In in H;
  repeat match type of H with
         | _ \/ _ => destruct H as [H | H]
         | False => contradiction
         | EvFetch _ = EvFetch _ => injection H as <-
         | _ = EvFetch _ => discriminate H
         end.

(** The shape shared by remix-video, get-video-status, list-videos and
    delete-video: one request, the [ok] check, the JSON body. *)
Lemma one_request_reports_failures (w : World) (label : string)
      (request : string -> Request) (reply : JsVal -> Envelope) :
  reports_failures w
    (try_catch
       (let* apiKey := lift (getApiKey w) in
        let* response := perform (EvFetch (request apiKey)) (fetch w (request apiKey)) in
        let* _ := check_ok "Sora API error: " response in
        let* output := lift (resp_json response) in
        ret (reply output))
       (fun errorMessage => ret (failure (label +:+ errorMessage)))).
Proof.
  unfold reports_failures.
  destruct (getApiKey w) as [apiKey|e]; run.
  2:{ split; [eauto |]. intros req resp H. fetched_cases H. }
  destruct (fetch w (request apiKey)) as [response|e] eqn:Hfetch; run.
  2:{ split; [eauto |]. intros req resp H. fetched_cases H. congruence. }
  destruct (resp_ok response) eqn:Hok.
  - rewrite (check_ok_passes _ _ Hok). run.
    destruct (resp_json response); run;
      (split; [eauto |]); intros req resp H; fetched_cases H; congruence.
  - rewrite (check_ok_throws _ _ Hok). run.
    split; [eauto |]. intros req resp H. fetched_cases H.
    intros Hresp _. rewrite Hfetch in Hresp. injection Hresp as <-.
    eexists _, _. split; [reflexivity |]. split; [reflexivity |].
    split; [reflexivity |]. apply reported.
Qed.

(** ** create-video: preparing the reference file *)

(** The reference-file block, case by case: what it logs and what it gives. *)
Lemma prepare_input_reference_unfold (w : World) (finalSize input_reference : string) :
  let filePath := path_resolve w input_reference in
  let filename := path_basename w filePath in
  let mimeType := detectMime filename in
  let wrap := fun e => "Failed to process input_reference file: " +:+ e in
  prepare_input_reference w finalSize input_reference =
  match fs_stat w filePath with
  | Throw e => ([EvStat filePath], Throw (wrap e))
  | Ok _ =>
      match parseTargetSize finalSize with
      | Throw e => ([EvStat filePath], Throw (wrap e))
      | Ok (width, height) =>
          if JS.startsWith mimeType "image/" then
            match sharp_resize w filePath width height cover_center with
            | Ok buf =>
                ([EvStat filePath; EvSharpResize filePath width height cover_center],
                 Ok (FilePart "input_reference" (mkBlob buf mimeType) filename))
            | Throw e =>
                ([EvStat filePath; EvSharpResize filePath width height cover_center],
                 Throw (wrap e))
            end
          else
            match fs_readFile w filePath with
            | Ok buf =>
                ([EvStat filePath; EvReadFile filePath],
                 Ok (FilePart "input_reference" (mkBlob buf mimeType) filename))
            | Throw e => ([EvStat filePath; EvReadFile filePath], Throw (wrap e))
            end
      end
  end.
Proof.
  cbv zeta. unfold prepare_input_reference.
  destruct (fs_stat w (path_resolve w input_reference)); run; [|reflexivity].
  destruct (parseTargetSize finalSize) as [[width height]|e]; run; [|reflexivity].
  destruct (JS.startsWith _ _); run.
  - now destruct (sharp_resize w _ width height cover_center).
  - now destruct (fs_readFile w _).
Qed.

(** The block makes no request, and what it appends is a file entry named
    [input_reference]. *)
Lemma prepare_input_reference_result (w : World) (finalSize input_reference : string) :
  (forall req, ~ In (EvFetch req) (trace (prepare_input_reference w finalSize input_reference))) /\
  (forall part, result (prepare_input_reference w finalSize input_reference) = Ok part ->
     exists blob filename, part = FilePart "input_reference" blob filename).
Proof.
  rewrite prepare_input_reference_unfold.
  destruct (fs_stat w _); [|split; [intros req [H|[]]; discriminate H | discriminate]].
  destruct (parseTargetSize finalSize) as [[width height]|e];
    [|split; [intros req [H|[]]; discriminate H | discriminate]].
  destruct (JS.startsWith _ _);
    [destruct (sharp_resize w _ width height cover_center)
    |destruct (fs_readFile w _)];
    (split; [intros req [H|[H|[]]]; discriminate H |]);
    try discriminate; intros part [= <-]; eauto.
Qed.

Lemma handle_input_reference_result (w : World) (a : CreateVideoArgs)
      (finalSize : string) (formData : list FormPart) :
  (forall req, ~ In (EvFetch req) (trace (handle_input_reference w a finalSize formData))) /\
  (forall form, result (handle_input_reference w a finalSize formData) = Ok form ->
     form = formData \/
     exists blob filename,
       form = (formData ++ [FilePart "input_reference" blob filename])%list).
Proof.
  unfold handle_input_reference.
  destruct (cv_input_reference a) as [input_reference|];
    [destruct (JS.truthy input_reference)|]; run;
    try (split; [intros req [] | intros form [= <-]; now left]).
  destruct (prepare_input_reference_result w finalSize input_reference) as [Hlog Hpart].
  destruct (prepare_input_reference w finalSize input_reference) as [t [part|e]]; run.
  - rewrite app_nil_r. split; [exact Hlog |].
    intros form [= <-]. right.
    destruct (Hpart part eq_refl) as (blob & filename & ->). eauto.
  - split; [exact Hlog | discriminate].
Qed.

(** create-video up to its request: the log so far and the form, or the
    failure the outer [catch] turns into an envelope. *)
Lemma create_video_unfold (w : World) (a : CreateVideoArgs) :
  let finalSize := getVideoSize (cv_orientation a) (cv_size a) in
  let label := fun e => failure ("Error creating video: " +:+ e) in
  create_video w a =
  match getApiKey w with
  | Throw e => ([], Ok (label e))
  | Ok apiKey =>
      match handle_input_reference w a finalSize (text_fields a finalSize) with
      | (t, Throw e) => (t, Ok (label e))
      | (t, Ok formData) =>
          let req := create_request apiKey formData in
          match fetch w req with
          | Throw e => ((t ++ [EvFetch req])%list, Ok (label e))
          | Ok response =>
              if resp_ok response then
                match resp_json response with
                | Ok output =>
                    ((t ++ [EvFetch req])%list,
                     Ok (success (JSON_stringify_pretty w output) output))
                | Throw e => ((t ++ [EvFetch req])%list, Ok (label e))
                end
              else
                ((t ++ [EvFetch req])%list,
                 Ok (label ("Sora API error: " +:+ JS.string_of_Z (resp_status response)
                            +:+ " - " +:+ resp_text response)))
          end
      end
  end.
Proof.
  cbv zeta. unfold create_video.
  destruct (getApiKey w) as [apiKey|e]; run; [|reflexivity].
  destruct (handle_input_reference w a _ _) as [t [formData|e]]; run;
    [|rewrite ?app_nil_r; reflexivity].
  destruct (fetch w (create_request apiKey formData)) as [response|e]; run;
    [|rewrite ?app_nil_r; reflexivity].
  unfold check_ok. destruct (resp_ok response); run.
  - destruct (resp_json response); run; rewrite ?app_nil_r; reflexivity.
  - rewrite ?app_nil_r; reflexivity.
Qed.

Lemma fetched_after (t : list Event) (sent req : Request) :
  (forall r, ~ In (EvFetch r) t) ->
  In (EvFetch req) (t ++ [EvFetch sent]) -> req = sent.
Proof.
  intros Hlog H. apply in_app_or in H. destruct H as [H | [H | []]].
  - now apply Hlog in H.
  - now injection H.
Qed.

Lemma create_video_reports_failures (w : World) (a : CreateVideoArgs) :
  reports_failures w (create_video w a).
Proof.
  unfold reports_failures. rewrite create_video_unfold. cbv zeta.
  destruct (getApiKey w) as [apiKey|e]; run.
  2:{ split; [eauto |]. intros req resp H. fetched_cases H. }
  destruct (handle_input_reference_result w a
              (getVideoSize (cv_orientation a) (cv_size a))
              (text_fields a (getVideoSize (cv_orientation a) (cv_size a))))
    as [Hlog _].
  destruct (handle_input_reference w a _ _) as [t [formData|e]]; run.
  2:{ split; [eauto |]. intros req resp H. now apply Hlog in H. }
  destruct (fetch w (create_request apiKey formData)) as [response|e] eqn:Hfetch; run.
  2:{ split; [eauto |]. intros req resp H Hresp.
      apply (fetched_after _ _ _ Hlog) in H. congruence. }
  destruct (resp_ok response) eqn:Hok.
  - destruct (resp_json response); run;
      (split; [eauto |]); intros req resp H Hresp;
      apply (fetched_after _ _ _ Hlog) in H; congruence.
  - run. split; [eauto |]. intros req resp H Hresp _.
    apply (fetched_after _ _ _ Hlog) in H. subst req.
    rewrite Hfetch in Hresp. injection Hresp as <-.
    eexists _, _. split; [reflexivity |]. split; [reflexivity |].
    split; [reflexivity |]. apply reported.
Qed.

Lemma download_video_reports_failures (w : World) (video_id : string)
      (variant : option string) :
  reports_failures w (download_video w video_id variant).
Proof.
  unfold reports_failures, download_video.
  destruct (getApiKey w) as [apiKey|e]; run.
  2:{ split; [eauto |]. intros req resp H. fetched_cases H. }
  destruct (fetch w (status_request apiKey video_id)) as [response|e] eqn:Hfetch; run.
  2:{ split; [eauto |]. intros req resp H. fetched_cases H. congruence. }
  destruct (resp_ok response) eqn:Hok.
  - rewrite (check_ok_passes _ _ Hok). run.
    destruct (resp_json response) as [statusData|e]; run.
    2:{ split; [eauto |]. intros req resp H. fetched_cases H. congruence. }
    destruct (read_status statusData) as [status|e]; run.
    2:{ split; [eauto |]. intros req resp H. fetched_cases H. congruence. }
    destruct (not_completed status); run.
    2:{ split; [eauto |]. intros req resp H. fetched_cases H. congruence. }
    destruct (ToString status); run;
      (split; [eauto |]); intros req resp H; fetched_cases H; congruence.
  - rewrite (check_ok_throws _ _ Hok). run.
    split; [eauto |]. intros req resp H. fetched_cases H.
    intros Hresp _. rewrite Hfetch in Hresp. injection Hresp as <-.
    eexists _, _. split; [reflexivity |]. split; [reflexivity |].
    split; [reflexivity |]. apply reported.
Qed.

Lemma save_video_reports_failures (w : World) (a : SaveVideoArgs) :
  reports_failures w (save_video w a).
Proof.
  unfold reports_failures, save_video.
  destruct (getApiKey w) as [apiKey|e]; run.
  2:{ split; [eauto |]. intros req resp H. fetched_cases H. }
  destruct (fetch w (status_request apiKey (sv_video_id a)))
    as [response|e] eqn:Hfetch; run.
  2:{ split; [eauto |]. intros req resp H. fetched_cases H. congruence. }
  destruct (resp_ok response) eqn:Hok.
  2:{ rewrite (check_ok_throws _ _ Hok). run.
      split; [eauto |]. intros req resp H. fetched_cases H.
      intros Hresp _. rewrite Hfetch in Hresp. injection Hresp as <-.
      eexists _, _. split; [reflexivity |]. split; [reflexivity |].
      split; [reflexivity |]. apply reported. }
  rewrite (check_ok_passes _ _ Hok). run.
  destruct (resp_json response) as [statusData|e]; run.
  2:{ split; [eauto |]. intros req resp H. fetched_cases H. congruence. }
  destruct (read_status statusData) as [status|e]; run.
  2:{ split; [eauto |]. intros req resp H. fetched_cases H. congruence. }
  destruct (not_completed status); run.
  { destruct (ToString status); run;
      (split; [eauto |]); intros req resp H; fetched_cases H; congruence. }
  destruct (fetch w (content_request apiKey (sv_video_id a)))
    as [videoResponse|e] eqn:Hvideo; run.
  2:{ split; [eauto |]. intros req resp H. fetched_cases H; congruence. }
  destruct (resp_ok videoResponse) eqn:Hok2.
  - rewrite (check_ok_passes _ _ Hok2). run.
    destruct (fs_mkdir w _); run.
    2:{ split; [eauto |]. intros req resp H. fetched_cases H; congruence. }
    destruct (fs_writeFile w _ _); run;
      (split; [eauto |]); intros req resp H; fetched_cases H; congruence.
  - rewrite (check_ok_throws _ _ Hok2). run.
    split; [eauto |]. intros req resp H. fetched_cases H; [congruence |].
    intros Hresp _. rewrite Hvideo in Hresp. injection Hresp as <-.
    eexists _, _. split; [reflexivity |]. split; [reflexivity |].
    split; [reflexivity |]. apply reported.
Qed.

(** C4. For each of the seven tools: the handler always returns an envelope
    (nothing is thrown to the caller), and whenever one of its requests is
    answered with a status outside 200-299 the envelope has [isError: true] and
    a text that contains the status code and the response body text. *)
Theorem non_success_response_gives_error_envelope (w : World) (c : ToolCall) :
  (exists env, result (call_tool w c) = Ok env) /\
  forall req resp,
    fetched (call_tool w c) req -> fetch w req = Ok resp -> resp_ok resp = false ->
    exists env text,
      result (call_tool w c) = Ok env /\ isError env = true /\
      content env = [TextBlock text] /\
      JS.includes (JS.string_of_Z (resp_status resp)) text = true /\
      JS.includes (resp_text resp) text = true.
Proof.
  destruct c as [a|video_id prompt|video_id|a|video_id variant|a|video_id];
    cbn [call_tool].
  - apply create_video_reports_failures.
  - apply (one_request_reports_failures w "Error remixing video: "
             (fun apiKey => remix_request w apiKey video_id prompt)).
  - apply (one_request_reports_failures w "Error getting video status: "
             (fun apiKey => status_request apiKey video_id)).
  - apply (one_request_reports_failures w "Error listing videos: "
             (fun apiKey => list_request w apiKey a)).
  - apply download_video_reports_failures.
  - apply save_video_reports_failures.
  - apply (one_request_reports_failures w "Error deleting video: "
             (fun apiKey => delete_request apiKey video_id)
             (fun data => success (JSON_stringify_pretty w (VObj (delete_output video_id data)))
                                  (VObj (delete_output video_id data)))).
Qed.

(** get-video-status on an unknown id in the demo world: the 404 and its body
    text reach the caller inside an error envelope. *)
Lemma non_success_response_witness :
  exists env text,
    result (call_tool Demo.world (GetVideoStatus "nope")) = Ok env /\
    isError env = true /\ content env = [TextBlock text] /\
    JS.includes "404" text = true /\ JS.includes "Video not found" text = true.
Proof.
  apply (proj2 (non_success_response_gives_error_envelope
                  Demo.world (GetVideoStatus "nope"))
               (status_request "sk-test" "nope")
               {| resp_status := 404; resp_text := "Video not found";
                  resp_json := Throw "Unexpected token V in JSON at position 0";
                  resp_arrayBuffer := Demo.clip_bytes |}).
  - left. reflexivity.
  - reflexivity.
  - reflexivity.
Defined.

(** ** The size resolver *)

(** C1, as stated, fails: with no orientation and the empty string as size the
    resolver does not return the size verbatim, it returns the default. *)
Lemma empty_size_is_not_returned_verbatim :
  getVideoSize None (Some "") = "720x1280" /\
  getVideoSize None (Some "") <> resolve_as_stated None (Some "").
Proof. split; [reflexivity | discriminate]. Qed.

(** C1, amended. An orientation fixes the result whatever the size argument:
    vertical gives 720x1280 and landscape gives 1280x720.  Without an
    orientation a non-empty size string is returned verbatim, and an absent or
    empty size gives the vertical default 720x1280. *)
Theorem getVideoSize_precedence :
  (forall size, getVideoSize (Some vertical) size = "720x1280") /\
  (forall size, getVideoSize (Some landscape) size = "1280x720") /\
  (forall s, s <> "" -> getVideoSize None (Some s) = s) /\
  getVideoSize None (Some "") = "720x1280" /\
  getVideoSize None None = "720x1280".
Proof.
  repeat apply conj; try reflexivity.
  intros [|c s] H; [now elim H | reflexivity].
Qed.

Lemma getVideoSize_precedence_witness :
  "1024x1792" <> "" /\ getVideoSize None (Some "1024x1792") = "1024x1792".
Proof.
  split; [discriminate |].
  apply (proj1 (proj2 (proj2 getVideoSize_precedence)) "1024x1792").
  discriminate.
Defined.

(** The resolver agrees with the specification's wording on every input but
    the empty size string without an orientation. *)
Lemma getVideoSize_as_stated (orientation : option Orientation) (size : option string) :
  (orientation = None -> size <> Some "") ->
  getVideoSize orientation size = resolve_as_stated orientation size.
Proof.
  destruct orientation as [[|]|]; try reflexivity.
  destruct size as [[|c s]|]; try reflexivity.
  intros H. now elim (H eq_refl).
Qed.

(** ** MIME detection *)

Lemma split_toLowerCase_extension (filename : string) :
  exists ext,
    extension filename = Some ext /\ free_of "." ext = true /\
    (JS.toLowerCase filename = ext \/
     exists stem, JS.toLowerCase filename = stem +:+ "." +:+ ext).
Proof. apply (pop_split "."%char (JS.toLowerCase filename)). Qed.

(** C9. The detected MIME type is the table entry of the file name's
    extension, and [image/jpeg] when the table has none.  The extension is the
    text after the last dot of the lower-cased name (the whole lower-cased
    name when it has no dot). *)
Theorem detectMime_follows_table (filename : string) :
  exists ext,
    extension filename = Some ext /\ free_of "." ext = true /\
    (JS.toLowerCase filename = ext \/
     exists stem, JS.toLowerCase filename = stem +:+ "." +:+ ext) /\
    detectMime filename = mime_of_extension ext.
Proof.
  destruct (split_toLowerCase_extension filename) as (ext & Hext & Hfree & Hshape).
  exists ext. repeat apply conj; try assumption.
  unfold detectMime. rewrite Hext.
  unfold mime_of_extension, MIME_TABLE, ext_is. cbn [assoc].
  repeat (destruct (String.eqb ext _); [reflexivity |]).
  reflexivity.
Qed.

Lemma extension_of_suffix (stem ext : string) :
  JS.toLowerCase ext = ext -> free_of "." ext = true ->
  extension (stem +:+ "." +:+ ext) = Some ext.
Proof.
  intros Hlow Hfree. unfold extension.
  rewrite toLowerCase_append, toLowerCase_append, Hlow.
  change (JS.toLowerCase "." +:+ ext) with (String "."%char ext).
  now rewrite split_append, (split_free _ _ Hfree), pop_snoc.
Qed.

(** The table rows, read off the handler. *)
Lemma detectMime_rows (stem : string) :
  detectMime (stem +:+ "." +:+ "png") = "image/png" /\
  detectMime (stem +:+ "." +:+ "webp") = "image/webp" /\
  detectMime (stem +:+ "." +:+ "jpg") = "image/jpeg" /\
  detectMime (stem +:+ "." +:+ "jpeg") = "image/jpeg" /\
  detectMime (stem +:+ "." +:+ "mp4") = "video/mp4" /\
  detectMime (stem +:+ "." +:+ "mov") = "video/quicktime" /\
  detectMime (stem +:+ "." +:+ "webm") = "video/webm".
Proof.
  unfold detectMime.
  repeat apply conj; rewrite extension_of_suffix by reflexivity; reflexivity.
Qed.

(** ** create-video: the request *)

(** Whatever create-video sends is the form its reference step returned. *)
Lemma create_video_fetched (w : World) (a : CreateVideoArgs) (req : Request) :
  fetched (create_video w a) req ->
  let finalSize := getVideoSize (cv_orientation a) (cv_size a) in
  exists apiKey t form,
    getApiKey w = Ok apiKey /\
    handle_input_reference w a finalSize (text_fields a finalSize) = (t, Ok form) /\
    req = create_request apiKey form /\
    exists env, create_video w a = ((t ++ [EvFetch req])%list, Ok env).
Proof.
  unfold fetched. rewrite create_video_unfold. cbv zeta.
  destruct (getApiKey w) as [apiKey|e]; run; [|intros []].
  pose proof (handle_input_reference_result w a
                (getVideoSize (cv_orientation a) (cv_size a))
                (text_fields a (getVideoSize (cv_orientation a) (cv_size a))))
    as [Hlog _].
  destruct (handle_input_reference w a _ _) as [t [form|e]]; run.
  2:{ intros H. now apply Hlog in H. }
  destruct (fetch w _) as [response|e];
    [destruct (resp_ok response); [destruct (resp_json response)|]|];
    intros H; apply (fetched_after _ _ _ Hlog) in H; subst req;
    eexists _, _, _; repeat (split; [reflexivity |]); eauto.
Qed.

Lemma text_fields_size (a : CreateVideoArgs) (finalSize value : string) :
  In (Field "size" value) (text_fields a finalSize) <-> value = finalSize.
Proof.
  unfold text_fields. split.
  - intros [H|[H|[H|[H|[]]]]]; try discriminate H. now injection H.
  - intros ->. do 3 right. now left.
Qed.

(** The [size] entry of every form create-video sends is the resolved size. *)
Lemma create_video_sends_final_size (w : World) (a : CreateVideoArgs) (req : Request) :
  fetched (create_video w a) req ->
  exists parts,
    req_body req = FormBody parts /\
    forall value,
      In (Field "size" value) parts
      <-> value = getVideoSize (cv_orientation a) (cv_size a).
Proof.
  intros H. apply create_video_fetched in H. cbv zeta in H.
  destruct H as (apiKey & t & form & _ & Hform & -> & _).
  exists form. split; [reflexivity |]. intros value.
  pose proof (handle_input_reference_result w a
                (getVideoSize (cv_orientation a) (cv_size a))
                (text_fields a (getVideoSize (cv_orientation a) (cv_size a))))
    as [_ Hres].
  rewrite Hform in Hres. destruct (Hres form eq_refl) as [-> | (blob & filename & ->)].
  - apply text_fields_size.
  - rewrite in_app_iff, text_fields_size. split; [|now left].
    intros [H | [H | []]]; [exact H | discriminate H].
Qed.

(** C10. With no orientation and the empty string as size the resolved size
    is the vertical default 720x1280, and that is the [size] entry of every
    form the invocation sends: the empty string is not passed on. *)
Theorem empty_size_resolves_to_default (w : World) (a : CreateVideoArgs) :
  cv_orientation a = None -> cv_size a = Some "" ->
  getVideoSize (cv_orientation a) (cv_size a) = "720x1280" /\
  forall req,
    fetched (create_video w a) req ->
    exists parts,
      req_body req = FormBody parts /\
      forall value, In (Field "size" value) parts <-> value = "720x1280".
Proof.
  intros Ho Hs.
  assert (E : getVideoSize (cv_orientation a) (cv_size a) = "720x1280")
    by now rewrite Ho, Hs.
  split; [exact E |]. intros req H. rewrite <- E.
  exact (create_video_sends_final_size w a req H).
Qed.

Lemma empty_size_witness :
  cv_orientation (Demo.create (Some "") None) = None /\
  cv_size (Demo.create (Some "") None) = Some "" /\
  fetched (create_video Demo.world (Demo.create (Some "") None))
          (create_request "sk-test"
             (text_fields (Demo.create (Some "") None) "720x1280")) /\
  exists parts,
    FormBody (text_fields (Demo.create (Some "") None) "720x1280") = FormBody parts /\
    forall value, In (Field "size" value) parts <-> value = "720x1280".
Proof.
  split; [reflexivity |]. split; [reflexivity |].
  assert (F : fetched (create_video Demo.world (Demo.create (Some "") None))
                (create_request "sk-test"
                   (text_fields (Demo.create (Some "") None) "720x1280")))
    by (left; reflexivity).
  split; [exact F |].
  exact (proj2 (empty_size_resolves_to_default Demo.world (Demo.create (Some "") None)
                  eq_refl eq_refl) _ F).
Defined.

(** ** create-video: the size check *)

(** The sizes [parseTargetSize] refuses are those of [size_rejected], and it
    refuses them with one of its two messages. *)
Lemma parseTargetSize_rejects (finalSize : string) :
  size_rejected finalSize <->
  exists message,
    parseTargetSize finalSize = Throw message /\
    (message = invalid_format finalSize \/ message = invalid_dimensions finalSize).
Proof.
  unfold size_rejected, parseTargetSize.
  assert (T : forall message,
             message = invalid_format finalSize \/ message = invalid_dimensions finalSize ->
             exists m, @Throw (Z * Z) message = Throw m /\
                       (m = invalid_format finalSize \/ m = invalid_dimensions finalSize))
    by (intros message H; exists message; auto).
  destruct (JS.split "x" finalSize) as [|p0 [|p1 [|p2 rest]]];
    cbn [length Nat.eqb negb nth]; try (split; [intros _; apply T; auto | trivial]).
  destruct (JS.parseInt p0) as [width|]; [|split; [intros _; apply T; auto | trivial]].
  destruct (JS.parseInt p1) as [height|]; [|split; [intros _; apply T; auto | trivial]].
  destruct (Z.leb_spec width 0), (Z.leb_spec height 0); cbn [orb];
    try (split; [intros _; apply T; auto | intros _; lia]).
  split; [lia |]. intros (message & Hm & _). discriminate Hm.
Qed.


Lemma all_digits_leading (t : string) :
  all_digits t = true -> JS.truthy t = true ->
  JS.trimStart t = t /\ JS.leading_digits t <> [] /\
  match t with
  | String "-"%char _ | String "+"%char _ => False
  | _ => True
  end.
Proof.
  destruct t as [|c r]; [discriminate 2 |]. intros H _.
  cbn [all_digits] in H. cbn [JS.trimStart JS.leading_digits].
  destruct (JS.digit c) as [d|] eqn:Hd; [|discriminate H].
  unfold JS.digit in Hd.
  destruct ((48 <=? JS.code c)%N && (JS.code c <=? 57)%N) eqn:Hrange; [|discriminate Hd].
  apply andb_prop in Hrange as [Hlo Hhi].
  apply N.leb_le in Hlo. apply N.leb_le in Hhi.
  assert (Hwhite : JS.is_white c = false).
  { unfold JS.is_white.
    destruct (N.leb_spec 9 (JS.code c)), (N.leb_spec (JS.code c) 13),
      (N.eqb_spec (JS.code c) 32), (N.eqb_spec (JS.code c) 160); try lia; reflexivity. }
  rewrite Hwhite. split; [reflexivity |]. split; [discriminate |].
  destruct c as [[] [] [] [] [] [] [] []]; try exact I;
    cbv in Hlo; cbv in Hhi; try (now elim Hlo); now elim Hhi.
Qed.

(** A positive integer token is read by [parseInt] as its positive value. *)
Lemma positive_integer_token_parse (t : string) :
  positive_integer_token t = true ->
  exists n, JS.parseInt t = Some n /\ 0 < n.
Proof.
  unfold positive_integer_token. intros H.
  apply andb_prop in H as [H Hpos]. apply andb_prop in H as [Hne Hdig].
  apply Z.ltb_lt in Hpos.
  destruct (all_digits_leading t Hdig Hne) as (Htrim & Hlead & Hsign).
  unfold JS.parseInt. rewrite Htrim.
  assert (E : (let '(sign, body) :=
                 match t with
                 | String "-"%char r => (-1, r)
                 | String "+"%char r => (1, r)
                 | _ => (1, t)
                 end in
               match JS.leading_digits body with
               | [] => None
               | ds => Some (sign * JS.decimal_value ds)
               end)
              = Some (JS.decimal_value (JS.leading_digits t))).
  { destruct t as [|c r]; [discriminate Hne |].
    destruct c as [[] [] [] [] [] [] [] []]; try (now elim Hsign);
      (destruct (JS.leading_digits (String _ r)) eqn:El; [now elim Hlead |];
       now rewrite Z.mul_1_l). }
  rewrite E. eauto.
Qed.

(** Every size the specification calls conforming passes the handler's check;
    so a size the handler rejects is never a conforming one. *)
Lemma conforming_size_not_rejected (finalSize : string) :
  conforming_size finalSize = true -> ~ size_rejected finalSize.
Proof.
  unfold conforming_size, size_rejected.
  destruct (JS.split "x" finalSize) as [|p0 [|p1 [|p2 rest]]]; try discriminate.
  intros H. apply andb_prop in H as [H0 H1].
  destruct (positive_integer_token_parse p0 H0) as (width & -> & Hw).
  destruct (positive_integer_token_parse p1 H1) as (height & -> & Hh).
  lia.
Qed.

(** Two guards sit in front of the size check.  An empty [input_reference] is
    falsy, so the reference block is skipped and the form goes out as it is. *)
Lemma empty_reference_skips_preparation (w : World) (a : CreateVideoArgs)
      (finalSize : string) (formData : list FormPart) :
  cv_input_reference a = Some "" ->
  handle_input_reference w a finalSize formData = ret formData.
Proof. intros H. unfold handle_input_reference. now rewrite H. Qed.

(** And [stat] comes first: for a missing file the caller gets the file
    error, whatever the size string is. *)
Lemma missing_file_fails_first
      (w : World) (a : CreateVideoArgs) (apiKey input_reference e : string) :
  getApiKey w = Ok apiKey ->
  cv_input_reference a = Some input_reference ->
  input_reference <> "" ->
  fs_stat w (path_resolve w input_reference) = Throw e ->
  create_video w a
  = ([EvStat (path_resolve w input_reference)],
     Ok (failure ("Error creating video: Failed to process input_reference file: " +:+ e))).
Proof.
  intros Hkey Href Hne Hstat.
  rewrite create_video_unfold. cbv zeta. rewrite Hkey.
  unfold handle_input_reference. rewrite Href.
  destruct input_reference as [|c r]; [now elim Hne |]. cbn [JS.truthy].
  rewrite prepare_input_reference_unfold. cbv zeta.
  rewrite Hstat. run. reflexivity.
Qed.

(** C2, as stated, fails: [720x1280abc] does not split into two integer
    tokens, yet [parseInt] reads 1280 from [1280abc]; the image is resized to
    720 by 1280 and the request is sent with the size string as given. *)
Lemma lenient_size_reaches_resize :
  let a := Demo.create (Some "720x1280abc") (Some "cat.png") in
  conforming_size (getVideoSize (cv_orientation a) (cv_size a)) = false /\
  trace (create_video Demo.world a)
  = [ EvStat "/work/cat.png";
      EvSharpResize "/work/cat.png" 720 1280 cover_center;
      EvFetch (create_request "sk-test"
                 (text_fields a "720x1280abc"
                  ++ [FilePart "input_reference"
                        (mkBlob Demo.portrait_jpeg "image/png") "cat.png"])) ] /\
  ~ validation_as_stated Demo.world a.
Proof.
  cbv zeta. split; [reflexivity |]. split; [reflexivity |].
  intros H. destruct (H "cat.png" eq_refl eq_refl) as [Hno _].
  apply Hno. exists "/work/cat.png", 720, 1280, cover_center.
  right. left. reflexivity.
Qed.

(** C2, amended.  When a non-empty [input_reference] names a file that
    exists and the resolved size is one the handler's parse refuses (it does
    not split on [x] into exactly two pieces, or [parseInt] reads no number
    from a piece, or a parsed value is zero or negative), create-video stops
    after the [stat] call: nothing is resized, read or sent, and the caller
    gets the error envelope that carries the invalid-size message. *)
Theorem rejected_size_fails_before_resize
        (w : World) (a : CreateVideoArgs) (apiKey input_reference : string) :
  let finalSize := getVideoSize (cv_orientation a) (cv_size a) in
  getApiKey w = Ok apiKey ->
  cv_input_reference a = Some input_reference ->
  input_reference <> "" ->
  fs_stat w (path_resolve w input_reference) = Ok tt ->
  size_rejected finalSize ->
  exists message,
    (message = invalid_format finalSize \/ message = invalid_dimensions finalSize) /\
    create_video w a
    = ([EvStat (path_resolve w input_reference)],
       Ok (failure ("Error creating video: Failed to process input_reference file: "
                    +:+ message))) /\
    ~ resize_attempted (create_video w a).
Proof.
  intros finalSize Hkey Href Hne Hstat Hrej.
  apply parseTargetSize_rejects in Hrej as (message & Hparse & Hmsg).
  exists message. split; [exact Hmsg |].
  assert (E : create_video w a
              = ([EvStat (path_resolve w input_reference)],
                 Ok (failure ("Error creating video: Failed to process input_reference file: "
                              +:+ message)))).
  { rewrite create_video_unfold. cbv zeta. rewrite Hkey.
    unfold handle_input_reference. rewrite Href.
    destruct input_reference as [|c r]; [now elim Hne |]. cbn [JS.truthy].
    rewrite prepare_input_reference_unfold. cbv zeta.
    fold finalSize. rewrite Hstat, Hparse. run. reflexivity. }
  split; [exact E |]. rewrite E.
  intros (path & width & height & options & [H | []]). discriminate H.
Qed.

Lemma rejected_size_witness :
  let a := Demo.create (Some "720by1280") (Some "cat.png") in
  getApiKey Demo.world = Ok "sk-test" /\
  size_rejected (getVideoSize (cv_orientation a) (cv_size a)) /\
  exists message,
    (message = invalid_format "720by1280" \/ message = invalid_dimensions "720by1280") /\
    create_video Demo.world a
    = ([EvStat "/work/cat.png"],
       Ok (failure ("Error creating video: Failed to process input_reference file: "
                    +:+ message))) /\
    ~ resize_attempted (create_video Demo.world a).
Proof.
  cbv zeta. split; [reflexivity |]. split; [exact I |].
  apply (rejected_size_fails_before_resize
           Demo.world (Demo.create (Some "720by1280") (Some "cat.png"))
           "sk-test" "cat.png").
  - reflexivity.
  - reflexivity.
  - discriminate.
  - reflexivity.
  - exact I.
Defined.

(** ** create-video: what is attached *)

Lemma text_fields_no_file (a : CreateVideoArgs) (finalSize name : string)
      (blob : Blob) (filename : string) :
  ~ In (FilePart name blob filename) (text_fields a finalSize).
Proof. intros [H|[H|[H|[H|[]]]]]; discriminate H. Qed.

(** A file entry of the form create-video sends is the one the reference
    block built: after [stat] and the size check, an image went through
    [sharp] and anything else was read from disk. *)
Lemma attached_reference (w : World) (a : CreateVideoArgs) (finalSize : string)
      (t : list Event) (form : list FormPart)
      (name : string) (blob : Blob) (filename : string) :
  handle_input_reference w a finalSize (text_fields a finalSize) = (t, Ok form) ->
  In (FilePart name blob filename) form ->
  exists input_reference width height,
    cv_input_reference a = Some input_reference /\
    parseTargetSize finalSize = Ok (width, height) /\
    name = "input_reference" /\
    filename = path_basename w (path_resolve w input_reference) /\
    blob_type blob = detectMime filename /\
    ((JS.startsWith (blob_type blob) "image/" = true /\
      sharp_resize w (path_resolve w input_reference) width height cover_center
      = Ok (blob_data blob) /\
      t = [EvStat (path_resolve w input_reference);
           EvSharpResize (path_resolve w input_reference) width height cover_center]) \/
     (JS.startsWith (blob_type blob) "image/" = false /\
      fs_readFile w (path_resolve w input_reference) = Ok (blob_data blob) /\
      t = [EvStat (path_resolve w input_reference);
           EvReadFile (path_resolve w input_reference)])).
Proof.
  unfold handle_input_reference.
  destruct (cv_input_reference a) as [input_reference|].
  2:{ intros [= <- <-] H. now apply text_fields_no_file in H. }
  destruct (JS.truthy input_reference).
  2:{ intros [= <- <-] H. now apply text_fields_no_file in H. }
  rewrite prepare_input_reference_unfold. cbv zeta.
  destruct (fs_stat w _); run; [|discriminate].
  destruct (parseTargetSize finalSize) as [[width height]|e]; run; [|discriminate].
  destruct (JS.startsWith _ _) eqn:Hkind;
    [destruct (sharp_resize w _ width height cover_center) as [buf|e] eqn:Hbuf
    |destruct (fs_readFile w _) as [buf|e] eqn:Hbuf]; run; try discriminate;
    intros [= <- <-] H;
    destruct H as [H|[H|[H|[H|[H|[]]]]]]; try discriminate H;
    injection H as <- <- <-;
    exists input_reference, width, height; cbn [blob_type blob_data];
    repeat (split; [reflexivity |]); [left | right]; auto.
Qed.

Section ImageReference.

Variable image_size : Buffer -> option (Z * Z).
Variable w : World.
Hypothesis sharp_cover : sharp_cover_contract image_size w.

(** C3. Given what [sharp] documents for a cover resize (the output has the
    requested dimensions), every image blob create-video attaches to a form
    it sends is the output of one [sharp] call on the reference file with
    fit [cover] and position [center], asked for exactly the width and height
    parsed from the resolved size; so its dimensions are that width and
    height, whatever the dimensions of the input image. *)
Theorem attached_image_has_target_dimensions
        (a : CreateVideoArgs) (req : Request) (parts : list FormPart)
        (name : string) (blob : Blob) (filename : string) :
  fetched (create_video w a) req ->
  req_body req = FormBody parts ->
  In (FilePart name blob filename) parts ->
  JS.startsWith (blob_type blob) "image/" = true ->
  exists input_reference width height,
    cv_input_reference a = Some input_reference /\
    parseTargetSize (getVideoSize (cv_orientation a) (cv_size a)) = Ok (width, height) /\
    sharp_resize w (path_resolve w input_reference) width height cover_center
    = Ok (blob_data blob) /\
    trace (create_video w a)
    = [ EvStat (path_resolve w input_reference);
        EvSharpResize (path_resolve w input_reference) width height cover_center;
        EvFetch req ] /\
    image_size (blob_data blob) = Some (width, height).
Proof.
  intros Hreq Hbody Hin Himage.
  apply create_video_fetched in Hreq. cbv zeta in Hreq.
  destruct Hreq as (apiKey & t & form & _ & Hform & -> & env & Hrun).
  injection Hbody as <-.
  destruct (attached_reference _ _ _ _ _ _ _ _ Hform Hin)
    as (input_reference & width & height & Href & Hparse & _ & _ & _ & Hcase).
  destruct Hcase as [(_ & Hbuf & ->) | (Hvideo & _)]; [|congruence].
  exists input_reference, width, height.
  repeat (split; [assumption |]). split.
  - now rewrite Hrun.
  - now apply (sharp_cover _ _ _ _ Hbuf).
Qed.

End ImageReference.

(** The demo world keeps the contract of [sharp]. *)
Lemma demo_sharp_contract : sharp_cover_contract Demo.size_of Demo.world.
Proof.
  intros path width height buf. cbn [sharp_resize Demo.world].
  unfold Demo.resize.
  destruct (String.eqb path "/work/cat.png"); [|discriminate].
  destruct ((width =? 720) && (height =? 1280)) eqn:E1.
  - intros [= <-]. apply andb_prop in E1 as [Ew Eh].
    apply Z.eqb_eq in Ew. apply Z.eqb_eq in Eh. now subst.
  - destruct ((width =? 1280) && (height =? 720)) eqn:E2; [|discriminate].
    intros [= <-]. apply andb_prop in E2 as [Ew Eh].
    apply Z.eqb_eq in Ew. apply Z.eqb_eq in Eh. now subst.
Defined.

Lemma attached_image_witness :
  let a := Demo.create (Some "1280x720") (Some "cat.png") in
  let blob := mkBlob Demo.wide_jpeg "image/png" in
  let parts := (text_fields a "1280x720" ++ [FilePart "input_reference" blob "cat.png"])%list in
  sharp_cover_contract Demo.size_of Demo.world /\
  fetched (create_video Demo.world a) (create_request "sk-test" parts) /\
  exists input_reference width height,
    cv_input_reference a = Some input_reference /\
    parseTargetSize (getVideoSize (cv_orientation a) (cv_size a)) = Ok (width, height) /\
    sharp_resize Demo.world (path_resolve Demo.world input_reference)
                 width height cover_center = Ok (blob_data blob) /\
    trace (create_video Demo.world a)
    = [ EvStat (path_resolve Demo.world input_reference);
        EvSharpResize (path_resolve Demo.world input_reference) width height cover_center;
        EvFetch (create_request "sk-test" parts) ] /\
    Demo.size_of (blob_data blob) = Some (width, height).
Proof.
  cbv zeta. split; [exact demo_sharp_contract |].
  assert (F : fetched (create_video Demo.world (Demo.create (Some "1280x720") (Some "cat.png")))
                (create_request "sk-test"
                   (text_fields (Demo.create (Some "1280x720") (Some "cat.png")) "1280x720"
                    ++ [FilePart "input_reference"
                          (mkBlob Demo.wide_jpeg "image/png") "cat.png"])))
    by (right; right; left; reflexivity).
  split; [exact F |].
  apply (attached_image_has_target_dimensions
           Demo.size_of Demo.world demo_sharp_contract
           (Demo.create (Some "1280x720") (Some "cat.png")) _ _
           "input_reference" (mkBlob Demo.wide_jpeg "image/png") "cat.png"
           F eq_refl).
  - do 4 right. left. reflexivity.
  - reflexivity.
Defined.

(** The other direction of C3: when the reference file exists, has an image
    extension and the size parses, a successful resize is attached and sent. *)
Lemma image_reference_is_attached
      (w : World) (a : CreateVideoArgs) (apiKey input_reference : string)
      (width height : Z) (buf : Buffer) :
  let finalSize := getVideoSize (cv_orientation a) (cv_size a) in
  let filePath := path_resolve w input_reference in
  let filename := path_basename w filePath in
  getApiKey w = Ok apiKey ->
  cv_input_reference a = Some input_reference ->
  input_reference <> "" ->
  fs_stat w filePath = Ok tt ->
  parseTargetSize finalSize = Ok (width, height) ->
  JS.startsWith (detectMime filename) "image/" = true ->
  sharp_resize w filePath width height cover_center = Ok buf ->
  trace (create_video w a)
  = [ EvStat filePath;
      EvSharpResize filePath width height cover_center;
      EvFetch (create_request apiKey
                 (text_fields a finalSize
                  ++ [FilePart "input_reference" (mkBlob buf (detectMime filename))
                        filename])) ].
Proof.
  intros finalSize filePath filename Hkey Href Hne Hstat Hparse Hkind Hbuf.
  rewrite create_video_unfold. cbv zeta. rewrite Hkey.
  unfold handle_input_reference. rewrite Href.
  destruct input_reference as [|c r]; [now elim Hne |]. cbn [JS.truthy].
  rewrite prepare_input_reference_unfold. cbv zeta.
  fold filePath. fold filename. fold finalSize.
  rewrite Hstat, Hparse, Hkind, Hbuf. run.
  destruct (fetch w _) as [response|e]; [|reflexivity].
  destruct (resp_ok response); [|reflexivity].
  destruct (resp_json response); reflexivity.
Qed.

(** ** create-video: a video reference *)

(** [detectMime] has six values; the three that are not images are videos. *)
Lemma detectMime_kind (filename : string) :
  JS.startsWith (detectMime filename) "image/" = true /\
  JS.startsWith (detectMime filename) "video/" = false \/
  JS.startsWith (detectMime filename) "image/" = false /\
  In (detectMime filename) ["video/mp4"; "video/quicktime"; "video/webm"].
Proof.
  unfold detectMime.
  repeat (match goal with |- context [if ?b then _ else _] => destruct b end;
          [cbn; auto 10 |]).
  cbn; auto.
Qed.

(** C8. When the reference has a video MIME type (mp4, mov or webm), the blob
    create-video attaches holds exactly the bytes [readFile] returned for the
    resolved path.  The invocation logs [stat], [readFile] and the request and
    nothing else: the video is neither resized nor inspected. *)
Theorem attached_video_is_file_bytes
        (w : World) (a : CreateVideoArgs) (req : Request) (parts : list FormPart)
        (name : string) (blob : Blob) (filename : string) :
  fetched (create_video w a) req ->
  req_body req = FormBody parts ->
  In (FilePart name blob filename) parts ->
  In (blob_type blob) ["video/mp4"; "video/quicktime"; "video/webm"] ->
  exists input_reference,
    cv_input_reference a = Some input_reference /\
    fs_readFile w (path_resolve w input_reference) = Ok (blob_data blob) /\
    trace (create_video w a)
    = [ EvStat (path_resolve w input_reference);
        EvReadFile (path_resolve w input_reference);
        EvFetch req ] /\
    ~ resize_attempted (create_video w a).
Proof.
  intros Hreq Hbody Hin Hvideo.
  apply create_video_fetched in Hreq. cbv zeta in Hreq.
  destruct Hreq as (apiKey & t & form & _ & Hform & -> & env & Hrun).
  injection Hbody as <-.
  destruct (attached_reference _ _ _ _ _ _ _ _ Hform Hin)
    as (input_reference & width & height & Href & _ & _ & _ & _ & Hcase).
  destruct Hcase as [(Himage & _) | (_ & Hbuf & ->)].
  { exfalso. destruct Hvideo as [E|[E|[E|[]]]]; rewrite <- E in Himage; discriminate Himage. }
  exists input_reference. rewrite Hrun. cbn [trace fst app].
  repeat (split; [assumption || reflexivity |]).
  intros (p & x & y & o & [H|[H|[H|[]]]]); discriminate H.
Qed.

Lemma attached_video_witness :
  let a := Demo.create (Some "1280x720") (Some "clip.mp4") in
  let blob := mkBlob Demo.clip_bytes "video/mp4" in
  let parts := (text_fields a "1280x720" ++ [FilePart "input_reference" blob "clip.mp4"])%list in
  fetched (create_video Demo.world a) (create_request "sk-test" parts) /\
  exists input_reference,
    cv_input_reference a = Some input_reference /\
    fs_readFile Demo.world (path_resolve Demo.world input_reference) = Ok (blob_data blob) /\
    trace (create_video Demo.world a)
    = [ EvStat (path_resolve Demo.world input_reference);
        EvReadFile (path_resolve Demo.world input_reference);
        EvFetch (create_request "sk-test" parts) ] /\
    ~ resize_attempted (create_video Demo.world a).
Proof.
  cbv zeta.
  assert (F : fetched (create_video Demo.world (Demo.create (Some "1280x720") (Some "clip.mp4")))
                (create_request "sk-test"
                   (text_fields (Demo.create (Some "1280x720") (Some "clip.mp4")) "1280x720"
                    ++ [FilePart "input_reference"
                          (mkBlob Demo.clip_bytes "video/mp4") "clip.mp4"])))
    by (right; right; left; reflexivity).
  split; [exact F |].
  apply (attached_video_is_file_bytes
           Demo.world (Demo.create (Some "1280x720") (Some "clip.mp4")) _ _
           "input_reference" (mkBlob Demo.clip_bytes "video/mp4") "clip.mp4"
           F eq_refl).
  - do 4 right. left. reflexivity.
  - left. reflexivity.
Defined.

(** The other direction of C8: an existing video file is read and sent as is. *)
Lemma video_reference_is_attached
      (w : World) (a : CreateVideoArgs) (apiKey input_reference : string)
      (width height : Z) (buf : Buffer) :
  let finalSize := getVideoSize (cv_orientation a) (cv_size a) in
  let filePath := path_resolve w input_reference in
  let filename := path_basename w filePath in
  getApiKey w = Ok apiKey ->
  cv_input_reference a = Some input_reference ->
  input_reference <> "" ->
  fs_stat w filePath = Ok tt ->
  parseTargetSize finalSize = Ok (width, height) ->
  In (detectMime filename) ["video/mp4"; "video/quicktime"; "video/webm"] ->
  fs_readFile w filePath = Ok buf ->
  trace (create_video w a)
  = [ EvStat filePath;
      EvReadFile filePath;
      EvFetch (create_request apiKey
                 (text_fields a finalSize
                  ++ [FilePart "input_reference" (mkBlob buf (detectMime filename))
                        filename])) ].
Proof.
  intros finalSize filePath filename Hkey Href Hne Hstat Hparse Hkind Hbuf.
  assert (Himage : JS.startsWith (detectMime filename) "image/" = false)
    by (destruct Hkind as [E|[E|[E|[]]]]; now rewrite <- E).
  rewrite create_video_unfold. cbv zeta. rewrite Hkey.
  unfold handle_input_reference. rewrite Href.
  destruct input_reference as [|c r]; [now elim Hne |]. cbn [JS.truthy].
  rewrite prepare_input_reference_unfold. cbv zeta.
  fold filePath. fold filename. fold finalSize.
  rewrite Hstat, Hparse, Himage, Hbuf. run.
  destruct (fetch w _) as [response|e]; [|reflexivity].
  destruct (resp_ok response); [|reflexivity].
  destruct (resp_json response); reflexivity.
Qed.

(** ** download-video and save-video: the status branch *)

Lemma not_completed_iff (status : JsVal) :
  not_completed status = true <-> status <> VStr "completed".
Proof.
  destruct status; cbn [not_completed]; try (split; [discriminate | reflexivity]).
  destruct (String.eqb_spec s "completed") as [-> | Hne]; cbn [negb].
  - split; [discriminate | intros H; now elim H].
  - split; [intros _ [= E]; now elim Hne | reflexivity].
Qed.

Lemma length_append (a b : string) :
  String.length (a +:+ b) = (String.length a + String.length b)%nat.
Proof.
  induction a as [|c a IH]; [reflexivity |].
  rewrite append_cons. cbn [String.length]. now rewrite IH.
Qed.

(** The status URL of a video is never the content URL of that video. *)
Lemma status_url_is_not_content_url (apiKey video_id : string) :
  req_url (status_request apiKey video_id) <> content_url video_id.
Proof.
  cbn [req_url status_request]. unfold content_url. intros E.
  apply (f_equal String.length) in E.
  rewrite !length_append in E. cbn [String.length] in E. lia.
Qed.

(** C5. When the status query of save-video succeeds and the status it
    returns is anything but the string [completed], the envelope carries that
    status and an empty [file_path]; the status query is the only request of
    the invocation, so nothing is asked of the content endpoint.  (The status
    is a string, or any value a template literal can print.) *)
Theorem save_video_not_completed
        (w : World) (a : SaveVideoArgs) (apiKey : string)
        (statusResponse : Response) (statusData status : JsVal) (shown : string) :
  getApiKey w = Ok apiKey ->
  fetch w (status_request apiKey (sv_video_id a)) = Ok statusResponse ->
  resp_ok statusResponse = true ->
  resp_json statusResponse = Ok statusData ->
  read_status statusData = Ok status ->
  status <> VStr "completed" ->
  ToString status = Ok shown ->
  exists env,
    save_video w a = ([EvFetch (status_request apiKey (sv_video_id a))], Ok env) /\
    isError env = false /\
    field env "video_id" = Some (VStr (sv_video_id a)) /\
    field env "status" = Some status /\
    field env "file_path" = Some (VStr "") /\
    field env "message" = Some (VStr (not_ready_message shown)) /\
    ~ fetched (save_video w a) (content_request apiKey (sv_video_id a)) /\
    forall req, fetched (save_video w a) req -> req_url req <> content_url (sv_video_id a).
Proof.
  intros Hkey Hfetch Hok Hjson Hstatus Hne Hshown.
  apply not_completed_iff in Hne.
  assert (E : exists env,
             save_video w a = ([EvFetch (status_request apiKey (sv_video_id a))], Ok env) /\
             isError env = false /\
             field env "video_id" = Some (VStr (sv_video_id a)) /\
             field env "status" = Some status /\
             field env "file_path" = Some (VStr "") /\
             field env "message" = Some (VStr (not_ready_message shown))).
  { unfold save_video. rewrite Hkey. run. rewrite Hfetch. run.
    rewrite (check_ok_passes _ _ Hok). run. rewrite Hjson. run.
    rewrite Hstatus. run. rewrite Hne, Hshown. run.
    eexists. split; [reflexivity |]. repeat split; reflexivity. }
  destruct E as (env & Hrun & Herr & Hid & Hst & Hpath & Hmsg).
  exists env. repeat (split; [assumption |]).
  assert (G : forall req, fetched (save_video w a) req ->
                          req_url req <> content_url (sv_video_id a)).
  { unfold fetched. rewrite Hrun. intros req [H | []].
    injection H as <-. apply status_url_is_not_content_url. }
  split; [|exact G].
  intros H. now apply G in H.
Qed.

Lemma save_video_not_completed_witness :
  let a := {| sv_video_id := "abc123"; sv_output_path := None; sv_filename := None |} in
  exists env,
    save_video Demo.world a = ([EvFetch (status_request "sk-test" "abc123")], Ok env) /\
    isError env = false /\
    field env "video_id" = Some (VStr "abc123") /\
    field env "status" = Some (VStr "in_progress") /\
    field env "file_path" = Some (VStr "") /\
    field env "message"
    = Some (VStr "Video is not ready yet. Current status: in_progress") /\
    ~ fetched (save_video Demo.world a) (content_request "sk-test" "abc123") /\
    forall req, fetched (save_video Demo.world a) req ->
                req_url req <> content_url "abc123".
Proof.
  cbv zeta.
  apply (save_video_not_completed
           Demo.world
           {| sv_video_id := "abc123"; sv_output_path := None; sv_filename := None |}
           "sk-test"
           {| resp_status := 200; resp_text := "job";
              resp_json := Demo.job "abc123" "in_progress";
              resp_arrayBuffer := Demo.clip_bytes |}
           (VObj {[ "id" := VStr "abc123"; "status" := VStr "in_progress" ]})
           (VStr "in_progress") "in_progress").
  - reflexivity.
  - reflexivity.
  - reflexivity.
  - reflexivity.
  - reflexivity.
  - discriminate.
  - reflexivity.
Defined.

(** The curl command names the API key and the video id. *)
Lemma curl_command_includes (apiKey downloadUrl video_id : string) :
  JS.includes apiKey (curl_command apiKey downloadUrl video_id) = true /\
  JS.includes video_id (curl_command apiKey downloadUrl video_id) = true.
Proof.
  unfold curl_command. split.
  - apply includes_intro
      with (pre := "curl -H " +:+ JS.dquote +:+ "Authorization: Bearer ")
           (post := JS.dquote +:+ " " +:+ JS.dquote +:+ downloadUrl +:+ JS.dquote
                    +:+ " -o " +:+ JS.dquote +:+ video_id +:+ ".mp4" +:+ JS.dquote).
    now rewrite !append_assoc.
  - apply includes_intro
      with (pre := "curl -H " +:+ JS.dquote +:+ "Authorization: Bearer " +:+ apiKey
                   +:+ JS.dquote +:+ " " +:+ JS.dquote +:+ downloadUrl +:+ JS.dquote
                   +:+ " -o " +:+ JS.dquote)
           (post := ".mp4" +:+ JS.dquote).
    now rewrite !append_assoc.
Qed.

(** C7. After a successful status query, download-video branches on the
    status.  If it is the string [completed], the envelope's [curl_command]
    contains the video id and the API key of the bearer header.  Otherwise the
    envelope carries the status it got, the not-ready message and an empty
    [curl_command].  (The status is a string, or any value a template literal
    can print.) *)
Theorem download_video_branches
        (w : World) (video_id : string) (variant : option string) (apiKey : string)
        (statusResponse : Response) (statusData status : JsVal) :
  getApiKey w = Ok apiKey ->
  fetch w (status_request apiKey video_id) = Ok statusResponse ->
  resp_ok statusResponse = true ->
  resp_json statusResponse = Ok statusData ->
  read_status statusData = Ok status ->
  (status = VStr "completed" ->
   exists env curl,
     download_video w video_id variant
     = ([EvFetch (status_request apiKey video_id)], Ok env) /\
     isError env = false /\
     field env "status" = Some (VStr "completed") /\
     field env "curl_command" = Some (VStr curl) /\
     JS.includes video_id curl = true /\
     JS.includes apiKey curl = true) /\
  (status <> VStr "completed" ->
   forall shown, ToString status = Ok shown ->
   exists env,
     download_video w video_id variant
     = ([EvFetch (status_request apiKey video_id)], Ok env) /\
     isError env = false /\
     field env "status" = Some status /\
     field env "message" = Some (VStr (not_ready_message shown)) /\
     field env "curl_command" = Some (VStr "")).
Proof.
  intros Hkey Hfetch Hok Hjson Hstatus.
  unfold download_video. rewrite Hkey. run. rewrite Hfetch. run.
  rewrite (check_ok_passes _ _ Hok). run. rewrite Hjson. run.
  rewrite Hstatus. run. split.
  - intros ->. cbn [not_completed String.eqb Ascii.eqb Bool.eqb negb]. run.
    eexists _, _. split; [reflexivity |]. split; [reflexivity |].
    split; [reflexivity |]. split; [reflexivity |].
    split; apply curl_command_includes.
  - intros Hne shown Hshown. apply not_completed_iff in Hne.
    rewrite Hne, Hshown. run.
    eexists. split; [reflexivity |]. repeat split; reflexivity.
Qed.

Lemma download_video_branches_witness :
  (exists env curl,
     download_video Demo.world "done1" None
     = ([EvFetch (status_request "sk-test" "done1")], Ok env) /\
     isError env = false /\
     field env "status" = Some (VStr "completed") /\
     field env "curl_command" = Some (VStr curl) /\
     JS.includes "done1" curl = true /\
     JS.includes "sk-test" curl = true) /\
  (exists env,
     download_video Demo.world "abc123" None
     = ([EvFetch (status_request "sk-test" "abc123")], Ok env) /\
     isError env = false /\
     field env "status" = Some (VStr "in_progress") /\
     field env "message"
     = Some (VStr "Video is not ready yet. Current status: in_progress") /\
     field env "curl_command" = Some (VStr "")).
Proof.
  split.
  - apply (proj1 (download_video_branches
                    Demo.world "done1" None "sk-test"
                    {| resp_status := 200; resp_text := "job";
                       resp_json := Demo.job "done1" "completed";
                       resp_arrayBuffer := Demo.clip_bytes |}
                    (VObj {[ "id" := VStr "done1"; "status" := VStr "completed" ]})
                    (VStr "completed")
                    eq_refl eq_refl eq_refl eq_refl eq_refl)).
    reflexivity.
  - apply (proj2 (download_video_branches
                    Demo.world "abc123" None "sk-test"
                    {| resp_status := 200; resp_text := "job";
                       resp_json := Demo.job "abc123" "in_progress";
                       resp_arrayBuffer := Demo.clip_bytes |}
                    (VObj {[ "id" := VStr "abc123"; "status" := VStr "in_progress" ]})
                    (VStr "in_progress")
                    eq_refl eq_refl eq_refl eq_refl eq_refl)).
    + discriminate.
    + reflexivity.
Defined.

(** ** delete-video: the merge *)

(** C6, as stated, fails: when the remote JSON has its own [deleted] property
    the spread puts that value in the output; a 2xx answer with
    [deleted: false] gives an envelope with [deleted: false]. *)
Lemma remote_deleted_flag_wins :
  (exists env,
     result (delete_video Demo.world "kept") = Ok env /\
     isError env = false /\
     field env "deleted" = Some (VBool false)) /\
  ~ merge_as_stated Demo.world "kept".
Proof.
  split.
  - eexists. split; [reflexivity |]. split; reflexivity.
  - intros H.
    destruct (H "sk-test"
                {| resp_status := 200; resp_text := "kept";
                   resp_json := Ok (VObj {[ "id" := VStr "kept"; "deleted" := VBool false ]});
                   resp_arrayBuffer := Demo.clip_bytes |}
                (VObj {[ "id" := VStr "kept"; "deleted" := VBool false ]})
                eq_refl eq_refl eq_refl eq_refl)
      as (env & Hrun & Hdeleted & _).
    injection Hrun as <-. discriminate Hdeleted.
Qed.

(** C6, amended.  After a 2xx response with a JSON body, the structured
    output of delete-video contains every property of the remote JSON with the
    remote value, and [id] (the video id), [deleted: true] and the success
    message for each of these three names that the remote JSON does not
    define itself. *)
Theorem delete_video_merges_remote_first
        (w : World) (video_id apiKey : string) (response : Response) (data : JsVal) :
  getApiKey w = Ok apiKey ->
  fetch w (delete_request apiKey video_id) = Ok response ->
  resp_ok response = true ->
  resp_json response = Ok data ->
  exists env,
    delete_video w video_id = ([EvFetch (delete_request apiKey video_id)], Ok env) /\
    isError env = false /\
    (forall key value,
       own_properties data !! key = Some value -> field env key = Some value) /\
    (own_properties data !! "id" = None -> field env "id" = Some (VStr video_id)) /\
    (own_properties data !! "deleted" = None -> field env "deleted" = Some (VBool true)) /\
    (own_properties data !! "message" = None ->
     field env "message" = Some (VStr (deleted_message video_id))).
Proof.
  intros Hkey Hfetch Hok Hjson.
  unfold delete_video. rewrite Hkey. run. rewrite Hfetch. run.
  rewrite (check_ok_passes _ _ Hok). run. rewrite Hjson. run.
  eexists. split; [reflexivity |]. split; [reflexivity |].
  unfold delete_output. run.
  split; [intros key value H; now apply lookup_union_Some_l |].
  repeat split; intros H; rewrite (lookup_union_r _ _ _ H); reflexivity.
Qed.

Lemma delete_video_witness :
  exists env,
    delete_video Demo.world "xyz" = ([EvFetch (delete_request "sk-test" "xyz")], Ok env) /\
    isError env = false /\
    field env "object" = Some (VStr "video.deleted") /\
    field env "deleted" = Some (VBool true) /\
    field env "message" = Some (VStr "Successfully deleted video xyz").
Proof.
  destruct (delete_video_merges_remote_first
              Demo.world "xyz" "sk-test"
              {| resp_status := 200; resp_text := "deleted";
                 resp_json := Ok (VObj {[ "id" := VStr "xyz";
                                          "object" := VStr "video.deleted";
                                          "deleted" := VBool true ]});
                 resp_arrayBuffer := Demo.clip_bytes |}
              (VObj {[ "id" := VStr "xyz"; "object" := VStr "video.deleted";
                       "deleted" := VBool true ]})
              eq_refl eq_refl eq_refl eq_refl)
    as (env & Hrun & Herr & Hremote & _ & _ & Hmessage).
  exists env. split; [exact Hrun |]. split; [exact Herr |].
  split; [apply Hremote; reflexivity |].
  split; [apply Hremote; reflexivity |].
  apply Hmessage. reflexivity.
Defined.

(** * Further properties of the handlers *)

(** One step of a case analysis on what the world answers. *)
Ltac oracle :=
  match goal with
  | |- context [getApiKey ?w] => destruct (getApiKey w) as [?apiKey|?e] eqn:?Hkey
  | |- context [fetch ?w ?r] => destruct (fetch w r) as [?response|?e] eqn:?Hfetch
  | |- context [check_ok ?p ?r] => unfold check_ok
  | |- context [resp_ok ?r] => destruct (resp_ok r) eqn:?Hok
  | |- context [resp_json ?r] => destruct (resp_json r) as [?data|?e] eqn:?Hjson
  | |- context [read_status ?d] => destruct (read_status d) as [?status|?e] eqn:?Hstatus
  | |- context [not_completed ?s] => destruct (not_completed s) eqn:?Hready
  | |- context [ToString ?s] => destruct (ToString s) as [?shown|?e] eqn:?Hshown
  | |- context [fs_mkdir ?w ?d] => destruct (fs_mkdir w d) as [[]|?e] eqn:?Hmkdir
  | |- context [fs_writeFile ?w ?p ?b] =>
      destruct (fs_writeFile w p b) as [[]|?e] eqn:?Hwrite
  end; run.

Ltac unfold_tools :=
  unfold remix_video, get_video_status, list_videos, download_video, save_video,
    delete_video.

Lemma getApiKey_missing (w : World) :
  env_OPENAI_API_KEY w = None \/ env_OPENAI_API_KEY w = Some "" ->
  getApiKey w = Throw "OPENAI_API_KEY environment variable is required".
Proof. unfold getApiKey. now intros [-> | ->]. Qed.


(** X1. Without a usable API key (unset or empty) every tool stops before
    any external call and returns its error envelope with the missing-key
    message. *)
Theorem missing_api_key_stops_every_tool (w : World) (c : ToolCall) :
  env_OPENAI_API_KEY w = None \/ env_OPENAI_API_KEY w = Some "" ->
  call_tool w c
  = ([], Ok (failure (error_label c
                      +:+ "OPENAI_API_KEY environment variable is required"))).
Proof.
  intros H. apply getApiKey_missing in H.
  destruct c; cbn [call_tool error_label];
    unfold create_video; unfold_tools; now rewrite H.
Qed.

Lemma missing_api_key_witness :
  call_tool (with_environment (Some "") None Demo.world) (DeleteVideo "xyz")
  = ([], Ok (failure "Error deleting video: OPENAI_API_KEY environment variable is required")).
Proof.
  apply (missing_api_key_stops_every_tool
           (with_environment (Some "") None Demo.world) (DeleteVideo "xyz")).
  right. reflexivity.
Defined.

(** The reference block only looks at the file: it logs [stat], then at most
    one of [sharp] and [readFile]. *)
Lemma handle_input_reference_log (w : World) (a : CreateVideoArgs)
      (finalSize : string) (formData : list FormPart) :
  let t := trace (handle_input_reference w a finalSize formData) in
  requests t = [] /\
  forall ev, In ev t ->
    match ev with
    | EvStat _ | EvSharpResize _ _ _ _ | EvReadFile _ => True
    | _ => False
    end.
Proof.
  cbv zeta. unfold handle_input_reference.
  destruct (cv_input_reference a) as [input_reference|];
    [destruct (JS.truthy input_reference)|]; run;
    try (split; [reflexivity | intros ev []]).
  rewrite prepare_input_reference_unfold. cbv zeta.
  destruct (fs_stat w _); run.
  2:{ split; [reflexivity | intros ev [<- | []]; exact I]. }
  destruct (parseTargetSize finalSize) as [[width height]|e]; run.
  2:{ split; [reflexivity | intros ev [<- | []]; exact I]. }
  destruct (JS.startsWith _ _);
    [destruct (sharp_resize w _ width height cover_center)
    |destruct (fs_readFile w _)]; run;
    (split; [reflexivity | intros ev [<- | [<- | []]]; exact I]).
Qed.

Lemma requests_app (t u : list Event) : requests (t ++ u) = (requests t ++ requests u)%list.
Proof.
  induction t as [|ev t IH]; [reflexivity |].
  destruct ev; cbn [app requests]; now rewrite IH.
Qed.

Lemma requests_fetched (t : list Event) (req : Request) :
  In (EvFetch req) t <-> In req (requests t).
Proof.
  induction t as [|ev t IH]; [reflexivity |].
  destruct ev; cbn [In requests]; rewrite <- IH;
    split; try (intros [H | H]; [discriminate H | exact H]); auto.
  - intros [[= ->] | H]; auto.
  - intros [-> | H]; auto.
Qed.

Ltac envelope_shape :=
  eexists _, _; split; [reflexivity |]; split; [reflexivity |];
  first [ left; split; [reflexivity |]; split; [reflexivity |]; eexists; reflexivity
        | right; split; [reflexivity |]; eexists; reflexivity ].

(** X2. Every tool call returns an envelope with exactly one text block.  It
    is either an error envelope, without structured content and with a text
    that starts with the tool's own error label, or a success envelope with
    structured content. *)
Theorem every_envelope_is_well_formed (w : World) (c : ToolCall) :
  exists env text,
    result (call_tool w c) = Ok env /\ content env = [TextBlock text] /\
    ((isError env = true /\ structuredContent env = None /\
      exists cause, text = error_label c +:+ cause) \/
     (isError env = false /\ exists output, structuredContent env = Some output)).
Proof.
  destruct c; cbn [call_tool error_label].
  - rewrite create_video_unfold. cbv zeta.
    destruct (getApiKey w); [|envelope_shape].
    destruct (handle_input_reference w a _ _) as [t [form|e]]; [|envelope_shape].
    cbv zeta. destruct (fetch w _) as [response|e];
      [destruct (resp_ok response); [destruct (resp_json response)|]|];
      envelope_shape.
  - unfold_tools. repeat oracle; envelope_shape.
  - unfold_tools. repeat oracle; envelope_shape.
  - unfold_tools. repeat oracle; envelope_shape.
  - unfold_tools. repeat oracle; envelope_shape.
  - unfold_tools. repeat oracle; envelope_shape.
  - unfold_tools. repeat oracle; envelope_shape.
Qed.

(** ** What the tools send *)

(** Each tool sends only the requests of its own endpoint. *)
Lemma fetched_request (w : World) (c : ToolCall) (req : Request) :
  fetched (call_tool w c) req ->
  exists apiKey,
    getApiKey w = Ok apiKey /\
    match c with
    | CreateVideo a => exists form, req = create_request apiKey form
    | RemixVideo video_id prompt => req = remix_request w apiKey video_id prompt
    | GetVideoStatus video_id => req = status_request apiKey video_id
    | ListVideos a => req = list_request w apiKey a
    | DownloadVideo video_id _ => req = status_request apiKey video_id
    | SaveVideo a =>
        req = status_request apiKey (sv_video_id a) \/
        req = content_request apiKey (sv_video_id a)
    | DeleteVideo video_id => req = delete_request apiKey video_id
    end.
Proof.
  destruct c; cbn [call_tool].
  - intros H. apply create_video_fetched in H. cbv zeta in H.
    destruct H as (apiKey & t & form & Hkey & _ & -> & _). eauto.
  - unfold_tools. repeat oracle; intros H; fetched_cases H; eauto.
  - unfold_tools. repeat oracle; intros H; fetched_cases H; eauto.
  - unfold_tools. repeat oracle; intros H; fetched_cases H; eauto.
  - unfold_tools. repeat oracle; intros H; fetched_cases H; eauto.
  - unfold_tools. repeat oracle; intros H; fetched_cases H; eauto.
  - unfold_tools. repeat oracle; intros H; fetched_cases H; eauto.
Qed.




(** X4. No tool repeats a request: save-video sends at most two requests,
    every other tool at most one. *)
Theorem tools_send_at_most_two_requests (w : World) (c : ToolCall) :
  (length (requests (trace (call_tool w c)))
   <= match c with SaveVideo _ => 2 | _ => 1 end)%nat.
Proof.
  destruct c; cbn [call_tool].
  - rewrite create_video_unfold. cbv zeta.
    destruct (getApiKey w); [|cbn; lia].
    pose proof (handle_input_reference_log w a
                  (getVideoSize (cv_orientation a) (cv_size a))
                  (text_fields a (getVideoSize (cv_orientation a) (cv_size a))))
      as [Hnone _].
    cbv zeta in Hnone.
    destruct (handle_input_reference w a _ _) as [t [form|e]]; cbn [trace fst] in *;
      [|rewrite Hnone; cbn; lia].
    cbv zeta. destruct (fetch w _) as [response|e];
      [destruct (resp_ok response); [destruct (resp_json response)|]|];
      cbn [trace fst]; rewrite requests_app, Hnone; cbn; lia.
  - unfold_tools. repeat oracle; cbn; lia.
  - unfold_tools. repeat oracle; cbn; lia.
  - unfold_tools. repeat oracle; cbn; lia.
  - unfold_tools. repeat oracle; cbn; lia.
  - unfold_tools. repeat oracle; cbn; lia.
  - unfold_tools. repeat oracle; cbn; lia.
Qed.

(** X5. The method of a request is fixed by the tool: create-video and
    remix-video send POST, delete-video sends DELETE, and the four reading
    tools (status, list, download, save) only ever send GET.  So a DELETE
    request comes from delete-video alone, for the id it was given. *)
Theorem request_method_follows_tool (w : World) (c : ToolCall) (req : Request) :
  fetched (call_tool w c) req ->
  req_method req
  = match c with
    | CreateVideo _ | RemixVideo _ _ => POST
    | DeleteVideo _ => DELETE
    | _ => GET
    end /\
  (req_method req = DELETE ->
   exists video_id,
     c = DeleteVideo video_id /\
     req_url req = "https://api.openai.com/v1/videos/" +:+ video_id).
Proof.
  intros H. apply fetched_request in H as (apiKey & _ & Hreq).
  destruct c; try destruct Hreq as [-> | ->]; try destruct Hreq as (form & ->);
    try subst req; (split; [reflexivity |]); try discriminate.
  intros _. exists video_id. split; reflexivity.
Qed.

Lemma request_method_witness :
  req_method (delete_request "sk-test" "xyz") = DELETE /\
  (req_method (delete_request "sk-test" "xyz") = DELETE ->
   exists video_id,
     DeleteVideo "xyz" = DeleteVideo video_id /\
     req_url (delete_request "sk-test" "xyz")
     = "https://api.openai.com/v1/videos/" +:+ video_id).
Proof.
  apply (request_method_follows_tool Demo.world (DeleteVideo "xyz")).
  left. reflexivity.
Defined.

(** X6. The tools keep to their part of the file system: only save-video
    creates a directory or writes a file, and only create-video looks at a
    file ([stat], [sharp], [readFile]). *)
Theorem file_system_use_follows_tool (w : World) (c : ToolCall) (ev : Event) :
  In ev (trace (call_tool w c)) ->
  match ev with
  | EvMkdir _ | EvWriteFile _ _ => exists a, c = SaveVideo a
  | EvStat _ | EvSharpResize _ _ _ _ | EvReadFile _ => exists a, c = CreateVideo a
  | EvFetch _ => True
  end.
Proof.
  destruct c; cbn [call_tool].
  - rewrite create_video_unfold. cbv zeta.
    destruct (getApiKey w); [|intros []].
    pose proof (handle_input_reference_log w a
                  (getVideoSize (cv_orientation a) (cv_size a))
                  (text_fields a (getVideoSize (cv_orientation a) (cv_size a))))
      as [_ Hlog].
    cbv zeta in Hlog.
    assert (G : forall t, (forall e, In e t ->
                             match e with
                             | EvStat _ | EvSharpResize _ _ _ _ | EvReadFile _ => True
                             | _ => False
                             end) ->
                forall r, In ev (t ++ [EvFetch r]) ->
                          match ev with
                          | EvMkdir _ | EvWriteFile _ _ => exists a0, CreateVideo a = SaveVideo a0
                          | EvStat _ | EvSharpResize _ _ _ _ | EvReadFile _ =>
                              exists a0, CreateVideo a = CreateVideo a0
                          | EvFetch _ => True
                          end).
    { intros t Ht r H. apply in_app_or in H as [H | [<- | []]]; [|exact I].
      apply Ht in H. destruct ev; try contradiction; eauto. }
    destruct (handle_input_reference w a _ _) as [t [form|e]]; cbn [trace fst] in *.
    2:{ intros H. apply Hlog in H. destruct ev; try contradiction; eauto. }
    cbv zeta. destruct (fetch w _) as [response|e];
      [destruct (resp_ok response); [destruct (resp_json response)|]|];
      cbn [trace fst]; now apply G.
  - unfold_tools. repeat oracle; simpl In;
      intros H; repeat (destruct H as [<- | H]); try contradiction; eauto.
  - unfold_tools. repeat oracle; simpl In;
      intros H; repeat (destruct H as [<- | H]); try contradiction; eauto.
  - unfold_tools. repeat oracle; simpl In;
      intros H; repeat (destruct H as [<- | H]); try contradiction; eauto.
  - unfold_tools. repeat oracle; simpl In;
      intros H; repeat (destruct H as [<- | H]); try contradiction; eauto.
  - unfold_tools. repeat oracle; simpl In;
      intros H; repeat (destruct H as [<- | H]); try contradiction; eauto.
  - unfold_tools. repeat oracle; simpl In;
      intros H; repeat (destruct H as [<- | H]); try contradiction; eauto.
Qed.

Lemma file_system_use_witness :
  exists a, SaveVideo (Studio.save None None) = SaveVideo a.
Proof.
  apply (file_system_use_follows_tool
           Studio.world (SaveVideo (Studio.save None None))
           (EvWriteFile "/home/u/Downloads/done1.mp4" Demo.clip_bytes)).
  do 3 right. left. reflexivity.
Defined.

(** ** save-video: the download *)

Lemma completed_status (status : JsVal) :
  not_completed status = false -> status = VStr "completed".
Proof.
  destruct status; try discriminate. cbn [not_completed].
  destruct (String.eqb_spec s "completed") as [-> | _]; [reflexivity | discriminate].
Qed.

(** Whatever save-video writes, it writes at the end of a complete run. *)
Lemma save_video_write_inv (w : World) (a : SaveVideoArgs) (path : string) (data : Buffer) :
  In (EvWriteFile path data) (trace (save_video w a)) ->
  exists apiKey statusResponse statusData videoResponse,
    getApiKey w = Ok apiKey /\
    fetch w (status_request apiKey (sv_video_id a)) = Ok statusResponse /\
    resp_ok statusResponse = true /\
    resp_json statusResponse = Ok statusData /\
    read_status statusData = Ok (VStr "completed") /\
    fetch w (content_request apiKey (sv_video_id a)) = Ok videoResponse /\
    resp_ok videoResponse = true /\
    fs_mkdir w (save_dir w a) = Ok tt /\
    data = resp_arrayBuffer videoResponse /\
    path = save_path w a /\
    trace (save_video w a)
    = [ EvFetch (status_request apiKey (sv_video_id a));
        EvFetch (content_request apiKey (sv_video_id a));
        EvMkdir (save_dir w a);
        EvWriteFile path data ].
Proof.
  unfold save_video, save_path, save_dir, save_filename.
  repeat oracle; simpl In; intros H;
    repeat (destruct H as [H | H]; [try discriminate H |]); try contradiction;
    injection H as <- <-;
    match goal with Hready : not_completed _ = false |- _ =>
      apply completed_status in Hready; subst
    end;
    eexists _, _, _, _; repeat (split; [eassumption || reflexivity |]); reflexivity.
Qed.

(** X7. save-video writes a file only at the end of a complete run: after a
    2xx status answer whose status is the string [completed] and a 2xx answer
    of the content endpoint, and after [mkdir] succeeded.  The bytes written
    are exactly the body of the content response, and nothing else is written
    in the invocation. *)
Theorem save_video_writes_only_the_download
        (w : World) (a : SaveVideoArgs) (path : string) (data : Buffer) :
  In (EvWriteFile path data) (trace (save_video w a)) ->
  exists apiKey statusResponse statusData videoResponse,
    fetch w (status_request apiKey (sv_video_id a)) = Ok statusResponse /\
    resp_ok statusResponse = true /\
    resp_json statusResponse = Ok statusData /\
    read_status statusData = Ok (VStr "completed") /\
    fetch w (content_request apiKey (sv_video_id a)) = Ok videoResponse /\
    resp_ok videoResponse = true /\
    data = resp_arrayBuffer videoResponse /\
    forall path' data',
      In (EvWriteFile path' data') (trace (save_video w a)) ->
      path' = path /\ data' = data.
Proof.
  intros H.
  destruct (save_video_write_inv w a path data H)
    as (apiKey & statusResponse & statusData & videoResponse
        & _ & Hs & Hsok & Hjson & Hdone & Hv & Hvok & _ & Hdata & _ & Hlog).
  exists apiKey, statusResponse, statusData, videoResponse.
  repeat (split; [assumption |]).
  intros path' data'. rewrite Hlog.
  intros [E | [E | [E | [E | []]]]]; try discriminate E. now injection E.
Qed.

Lemma save_video_writes_witness :
  exists apiKey statusResponse statusData videoResponse,
    fetch Studio.world (status_request apiKey "done1") = Ok statusResponse /\
    resp_ok statusResponse = true /\
    resp_json statusResponse = Ok statusData /\
    read_status statusData = Ok (VStr "completed") /\
    fetch Studio.world (content_request apiKey "done1") = Ok videoResponse /\
    resp_ok videoResponse = true /\
    Demo.clip_bytes = resp_arrayBuffer videoResponse /\
    forall path' data',
      In (EvWriteFile path' data') (trace (save_video Studio.world (Studio.save None None))) ->
      path' = "/home/u/Downloads/done1.mp4" /\ data' = Demo.clip_bytes.
Proof.
  apply (save_video_writes_only_the_download
           Studio.world (Studio.save None None)
           "/home/u/Downloads/done1.mp4" Demo.clip_bytes).
  do 3 right. left. reflexivity.
Defined.

(** X8. When the status is [completed], the content request succeeds and
    [mkdir] and [writeFile] succeed, save-video makes exactly these four calls
    in this order and returns status [saved] with the path it wrote to. *)
Theorem save_video_saves_completed
        (w : World) (a : SaveVideoArgs) (apiKey : string)
        (statusResponse videoResponse : Response) (statusData : JsVal) :
  getApiKey w = Ok apiKey ->
  fetch w (status_request apiKey (sv_video_id a)) = Ok statusResponse ->
  resp_ok statusResponse = true ->
  resp_json statusResponse = Ok statusData ->
  read_status statusData = Ok (VStr "completed") ->
  fetch w (content_request apiKey (sv_video_id a)) = Ok videoResponse ->
  resp_ok videoResponse = true ->
  fs_mkdir w (save_dir w a) = Ok tt ->
  fs_writeFile w (save_path w a) (resp_arrayBuffer videoResponse) = Ok tt ->
  exists env,
    save_video w a
    = ([ EvFetch (status_request apiKey (sv_video_id a));
         EvFetch (content_request apiKey (sv_video_id a));
         EvMkdir (save_dir w a);
         EvWriteFile (save_path w a) (resp_arrayBuffer videoResponse) ],
       Ok env) /\
    isError env = false /\
    field env "video_id" = Some (VStr (sv_video_id a)) /\
    field env "status" = Some (VStr "saved") /\
    field env "file_path" = Some (VStr (save_path w a)) /\
    field env "message"
    = Some (VStr ("Video saved successfully to " +:+ save_path w a)).
Proof.
  intros Hkey Hs Hsok Hjson Hdone Hv Hvok Hmkdir Hwrite.
  unfold save_path, save_dir, save_filename in *.
  unfold save_video. rewrite Hkey. run. rewrite Hs. run.
  rewrite (check_ok_passes _ _ Hsok). run. rewrite Hjson. run.
  rewrite Hdone. run. cbn [not_completed String.eqb Ascii.eqb Bool.eqb negb]. run.
  rewrite Hv. run. rewrite (check_ok_passes _ _ Hvok). run.
  rewrite Hmkdir. run. rewrite Hwrite. run.
  eexists. split; [reflexivity |]. repeat split; reflexivity.
Qed.

Lemma save_video_saves_witness :
  exists env,
    save_video Studio.world (Studio.save (Some "out") (Some "cat.mp4"))
    = ([ EvFetch (status_request "sk-test" "done1");
         EvFetch (content_request "sk-test" "done1");
         EvMkdir "/work/out";
         EvWriteFile "/work/out/cat.mp4" Demo.clip_bytes ],
       Ok env) /\
    isError env = false /\
    field env "video_id" = Some (VStr "done1") /\
    field env "status" = Some (VStr "saved") /\
    field env "file_path" = Some (VStr "/work/out/cat.mp4") /\
    field env "message" = Some (VStr "Video saved successfully to /work/out/cat.mp4").
Proof.
  apply (save_video_saves_completed
           Studio.world (Studio.save (Some "out") (Some "cat.mp4")) "sk-test"
           {| resp_status := 200; resp_text := "job";
              resp_json := Demo.job "done1" "completed";
              resp_arrayBuffer := Demo.clip_bytes |}
           Studio.movie
           (VObj {[ "id" := VStr "done1"; "status" := VStr "completed" ]}));
    reflexivity.
Defined.

(** X9. Where save-video writes.  The directory is the resolved
    [output_path] when that is given and non-empty; otherwise [DOWNLOAD_DIR]
    when that is set and non-empty; otherwise [Downloads] under the home
    directory.  The file name is [filename] when given and non-empty,
    otherwise the video id with [.mp4]. *)
Theorem save_video_destination
        (w : World) (a : SaveVideoArgs) (path : string) (data : Buffer) :
  In (EvWriteFile path data) (trace (save_video w a)) ->
  exists dir name,
    path = path_join w dir name /\
    In (EvMkdir dir) (trace (save_video w a)) /\
    match sv_output_path a with
    | Some (String c p) => dir = path_resolve w (String c p)
    | _ =>
        match env_DOWNLOAD_DIR w with
        | Some (String c d) => dir = String c d
        | _ => dir = path_join w (homedir w) "Downloads"
        end
    end /\
    match sv_filename a with
    | Some (String c f) => name = String c f
    | _ => name = sv_video_id a +:+ ".mp4"
    end.
Proof.
  intros H.
  destruct (save_video_write_inv w a path data H)
    as (apiKey & statusResponse & statusData & videoResponse
        & _ & _ & _ & _ & _ & _ & _ & _ & _ & Hpath & Hlog).
  subst path. exists (save_dir w a), (save_filename a).
  split; [reflexivity |]. split; [rewrite Hlog; do 2 right; now left |].
  unfold save_dir, save_filename, getDownloadDir, JS.or_else. split.
  - destruct (sv_output_path a) as [[|c p]|]; cbn [JS.truthy]; try reflexivity;
      destruct (env_DOWNLOAD_DIR w) as [[|c d]|]; reflexivity.
  - destruct (sv_filename a) as [[|c f]|]; reflexivity.
Qed.

Lemma save_video_destination_witness :
  exists dir name,
    "/home/u/Downloads/done1.mp4" = path_join Studio.world dir name /\
    In (EvMkdir dir) (trace (save_video Studio.world (Studio.save (Some "") None))) /\
    dir = path_join Studio.world (homedir Studio.world) "Downloads" /\
    name = "done1" +:+ ".mp4".
Proof.
  apply (save_video_destination
           Studio.world (Studio.save (Some "") None)
           "/home/u/Downloads/done1.mp4" Demo.clip_bytes).
  do 3 right. left. reflexivity.
Defined.

(** ** download-video: instructions only *)

(** X10. download-video asks for the status of the video and for nothing
    else: its whole log is that one request (or is empty, when the API key is
    missing).  It never touches the content endpoint, whatever the status. *)
Theorem download_video_only_asks_status
        (w : World) (video_id : string) (variant : option string) :
  (trace (download_video w video_id variant) = [] \/
   exists apiKey,
     getApiKey w = Ok apiKey /\
     trace (download_video w video_id variant)
     = [EvFetch (status_request apiKey video_id)]) /\
  forall req,
    fetched (download_video w video_id variant) req ->
    req_method req = GET /\ req_url req <> content_url video_id.
Proof.
  assert (G : trace (download_video w video_id variant) = [] \/
              exists apiKey,
                getApiKey w = Ok apiKey /\
                trace (download_video w video_id variant)
                = [EvFetch (status_request apiKey video_id)]).
  { unfold download_video. repeat oracle; eauto. }
  split; [exact G |]. unfold fetched. intros req H.
  destruct G as [E | (apiKey & _ & E)]; rewrite E in H; [destruct H |].
  destruct H as [[= <-] | []]. split; [reflexivity |].
  apply status_url_is_not_content_url.
Qed.

Lemma download_video_only_asks_status_witness :
  req_method (status_request "sk-test" "done1") = GET /\
  req_url (status_request "sk-test" "done1") <> content_url "done1".
Proof.
  apply (proj2 (download_video_only_asks_status Demo.world "done1" None)
               (status_request "sk-test" "done1")).
  left. reflexivity.
Defined.

(** X11. The download URL of the curl command.  With a non-empty [variant]
    it is the content URL followed by [?variant=] and the variant as given;
    with no variant, or an empty one, it is the content URL alone. *)
Theorem download_video_variant
        (w : World) (video_id : string) (variant : option string) (apiKey : string)
        (statusResponse : Response) (statusData : JsVal) :
  getApiKey w = Ok apiKey ->
  fetch w (status_request apiKey video_id) = Ok statusResponse ->
  resp_ok statusResponse = true ->
  resp_json statusResponse = Ok statusData ->
  read_status statusData = Ok (VStr "completed") ->
  exists env,
    result (download_video w video_id variant) = Ok env /\
    field env "curl_command"
    = Some (VStr (curl_command apiKey
                    (match variant with
                     | Some (String c v) =>
                         content_url video_id +:+ "?variant=" +:+ String c v
                     | _ => content_url video_id
                     end)
                    video_id)).
Proof.
  intros Hkey Hfetch Hok Hjson Hstatus.
  unfold download_video. rewrite Hkey. run. rewrite Hfetch. run.
  rewrite (check_ok_passes _ _ Hok). run. rewrite Hjson. run.
  rewrite Hstatus. run. cbn [not_completed String.eqb Ascii.eqb Bool.eqb negb]. run.
  eexists. split; [reflexivity |].
  destruct variant as [[|c v]|]; cbn [JS.truthy]; rewrite ?append_empty_r; reflexivity.
Qed.

Lemma download_video_variant_witness :
  exists env,
    result (download_video Demo.world "done1" (Some "thumbnail")) = Ok env /\
    field env "curl_command"
    = Some (VStr (curl_command "sk-test"
                    "https://api.openai.com/v1/videos/done1/content?variant=thumbnail"
                    "done1")).
Proof.
  apply (download_video_variant
           Demo.world "done1" (Some "thumbnail") "sk-test"
           {| resp_status := 200; resp_text := "job";
              resp_json := Demo.job "done1" "completed";
              resp_arrayBuffer := Demo.clip_bytes |}
           (VObj {[ "id" := VStr "done1"; "status" := VStr "completed" ]}));
    reflexivity.
Defined.

(** ** Edge cases of the status body *)

(** X12. A 2xx status answer whose JSON body is [null] makes download-video
    and save-video fail on reading [status]: both return their error envelope
    after the single status request, and save-video downloads and writes
    nothing. *)
Theorem null_status_body_is_an_error
        (w : World) (video_id : string) (variant : option string)
        (a : SaveVideoArgs) (apiKey : string) (statusResponse : Response) :
  sv_video_id a = video_id ->
  getApiKey w = Ok apiKey ->
  fetch w (status_request apiKey video_id) = Ok statusResponse ->
  resp_ok statusResponse = true ->
  resp_json statusResponse = Ok VNull ->
  download_video w video_id variant
  = ([EvFetch (status_request apiKey video_id)],
     Ok (failure ("Error preparing video download: "
                  +:+ "Cannot read properties of null (reading 'status')"))) /\
  save_video w a
  = ([EvFetch (status_request apiKey video_id)],
     Ok (failure ("Error saving video: "
                  +:+ "Cannot read properties of null (reading 'status')"))).
Proof.
  intros <- Hkey Hfetch Hok Hjson.
  unfold download_video, save_video. rewrite Hkey. run. rewrite Hfetch. run.
  rewrite (check_ok_passes _ _ Hok). run. rewrite Hjson. run. split; reflexivity.
Qed.

Lemma null_status_body_witness :
  download_video Studio.world "void" None
  = ([EvFetch (status_request "sk-test" "void")],
     Ok (failure ("Error preparing video download: "
                  +:+ "Cannot read properties of null (reading 'status')"))) /\
  save_video Studio.world
             {| sv_video_id := "void"; sv_output_path := None; sv_filename := None |}
  = ([EvFetch (status_request "sk-test" "void")],
     Ok (failure ("Error saving video: "
                  +:+ "Cannot read properties of null (reading 'status')"))).
Proof.
  apply (null_status_body_is_an_error
           Studio.world "void" None
           {| sv_video_id := "void"; sv_output_path := None; sv_filename := None |}
           "sk-test" Studio.nothing);
    reflexivity.
Defined.

(** X13. A 2xx status answer that is a JSON object without a [status]
    property counts as not ready: download-video and save-video report the
    status [undefined] with the message [... Current status: undefined], an
    empty [curl_command] and [file_path], and stop after the status request. *)
Theorem missing_status_is_not_ready
        (w : World) (video_id : string) (variant : option string)
        (a : SaveVideoArgs) (apiKey : string) (statusResponse : Response)
        (props : gmap string JsVal) :
  sv_video_id a = video_id ->
  getApiKey w = Ok apiKey ->
  fetch w (status_request apiKey video_id) = Ok statusResponse ->
  resp_ok statusResponse = true ->
  resp_json statusResponse = Ok (VObj props) ->
  props !! "status" = None ->
  exists download save,
    download_video w video_id variant
    = ([EvFetch (status_request apiKey video_id)], Ok download) /\
    save_video w a = ([EvFetch (status_request apiKey video_id)], Ok save) /\
    isError download = false /\ isError save = false /\
    field download "status" = Some VUndefined /\
    field save "status" = Some VUndefined /\
    field download "message"
    = Some (VStr "Video is not ready yet. Current status: undefined") /\
    field save "message"
    = Some (VStr "Video is not ready yet. Current status: undefined") /\
    field download "curl_command" = Some (VStr "") /\
    field save "file_path" = Some (VStr "").
Proof.
  intros <- Hkey Hfetch Hok Hjson Hnone.
  unfold download_video, save_video. rewrite Hkey. run. rewrite Hfetch. run.
  rewrite (check_ok_passes _ _ Hok). run. rewrite Hjson. run.
  cbn [read_status]. rewrite Hnone. run.
  cbn [default from_option id not_completed ToString]. run.
  eexists _, _. split; [reflexivity |]. split; [reflexivity |].
  repeat split; reflexivity.
Qed.

Lemma missing_status_witness :
  let w := with_fetch (fun _ => Demo.answer 200 "{}" (Ok (VObj ∅))) Demo.world in
  let a := {| sv_video_id := "abc123"; sv_output_path := None; sv_filename := None |} in
  exists download save,
    download_video w "abc123" None
    = ([EvFetch (status_request "sk-test" "abc123")], Ok download) /\
    save_video w a = ([EvFetch (status_request "sk-test" "abc123")], Ok save) /\
    isError download = false /\ isError save = false /\
    field download "status" = Some VUndefined /\
    field save "status" = Some VUndefined /\
    field download "message"
    = Some (VStr "Video is not ready yet. Current status: undefined") /\
    field save "message"
    = Some (VStr "Video is not ready yet. Current status: undefined") /\
    field download "curl_command" = Some (VStr "") /\
    field save "file_path" = Some (VStr "").
Proof.
  cbv zeta.
  apply (missing_status_is_not_ready
           (with_fetch (fun _ => Demo.answer 200 "{}" (Ok (VObj ∅))) Demo.world)
           "abc123" None
           {| sv_video_id := "abc123"; sv_output_path := None; sv_filename := None |}
           "sk-test"
           {| resp_status := 200; resp_text := "{}"; resp_json := Ok (VObj ∅);
              resp_arrayBuffer := Demo.clip_bytes |}
           ∅);
    reflexivity.
Defined.

(** ** The four pass-through tools *)

(** X14. A success envelope of create-video, remix-video, get-video-status or
    list-videos is the remote JSON, untouched: the tool sent a request, got a
    2xx answer with a JSON body, and returns that body as structured content
    with its pretty-printed text. *)
Theorem success_envelope_is_remote_json (w : World) (c : ToolCall) (env : Envelope) :
  match c with
  | CreateVideo _ | RemixVideo _ _ | GetVideoStatus _ | ListVideos _ => True
  | _ => False
  end ->
  result (call_tool w c) = Ok env ->
  isError env = false ->
  exists req response output,
    fetched (call_tool w c) req /\
    fetch w req = Ok response /\ resp_ok response = true /\
    resp_json response = Ok output /\
    structuredContent env = Some output /\
    content env = [TextBlock (JSON_stringify_pretty w output)].
Proof.
  destruct c; try contradiction; intros _; cbn [call_tool].
  - unfold fetched. rewrite create_video_unfold. cbv zeta.
    destruct (getApiKey w); [|intros [= <-]; discriminate].
    destruct (handle_input_reference w a _ _) as [t [form|e]];
      [|intros [= <-]; discriminate].
    cbv zeta. destruct (fetch w _) as [response|e] eqn:Hfetch;
      [destruct (resp_ok response) eqn:Hok;
       [destruct (resp_json response) as [output|e] eqn:Hjson|]|];
      run; intros [= <-]; try discriminate; intros _.
    eexists _, response, output. split; [apply in_or_app; right; now left |].
    repeat (split; [eassumption || reflexivity |]). reflexivity.
  - unfold_tools. unfold fetched.
    repeat oracle; intros [= <-]; try discriminate; intros _;
      eexists _, _, _; split; [now left |];
      repeat (split; [eassumption || reflexivity |]); reflexivity.
  - unfold_tools. unfold fetched.
    repeat oracle; intros [= <-]; try discriminate; intros _;
      eexists _, _, _; split; [now left |];
      repeat (split; [eassumption || reflexivity |]); reflexivity.
  - unfold_tools. unfold fetched.
    repeat oracle; intros [= <-]; try discriminate; intros _;
      eexists _, _, _; split; [now left |];
      repeat (split; [eassumption || reflexivity |]); reflexivity.
Qed.

Lemma success_envelope_witness :
  exists req response output,
    fetched (call_tool Demo.world (GetVideoStatus "abc123")) req /\
    fetch Demo.world req = Ok response /\ resp_ok response = true /\
    resp_json response = Ok output /\
    structuredContent
      (success "{}" (VObj {[ "id" := VStr "abc123"; "status" := VStr "in_progress" ]}))
    = Some output /\
    content
      (success "{}" (VObj {[ "id" := VStr "abc123"; "status" := VStr "in_progress" ]}))
    = [TextBlock (JSON_stringify_pretty Demo.world output)].
Proof.
  apply (success_envelope_is_remote_json
           Demo.world (GetVideoStatus "abc123")
           (success "{}" (VObj {[ "id" := VStr "abc123"; "status" := VStr "in_progress" ]}))
           I);
    reflexivity.
Defined.

(** ** create-video: with and without a reference *)

(** X15. Without an [input_reference] (absent or empty) create-video touches
    no file: its log is the single POST of a form with exactly the four text
    entries model, prompt, seconds and size, where model defaults to [sora-2]
    and seconds to [4]. *)
Theorem create_video_without_reference
        (w : World) (a : CreateVideoArgs) (apiKey : string) :
  getApiKey w = Ok apiKey ->
  cv_input_reference a = None \/ cv_input_reference a = Some "" ->
  trace (create_video w a)
  = [ EvFetch
        {| req_url := "https://api.openai.com/v1/videos";
           req_method := POST;
           req_headers := [("Authorization", "Bearer " +:+ apiKey)];
           req_body :=
             FormBody
               [ Field "model" (match cv_model a with Some m => m | None => "sora-2" end);
                 Field "prompt" (cv_prompt a);
                 Field "seconds" (match cv_seconds a with Some s => s | None => "4" end);
                 Field "size" (getVideoSize (cv_orientation a) (cv_size a)) ] |} ].
Proof.
  intros Hkey Href. rewrite create_video_unfold. cbv zeta. rewrite Hkey.
  assert (E : handle_input_reference w a
                (getVideoSize (cv_orientation a) (cv_size a))
                (text_fields a (getVideoSize (cv_orientation a) (cv_size a)))
              = ret (text_fields a (getVideoSize (cv_orientation a) (cv_size a))))
    by (unfold handle_input_reference; now destruct Href as [-> | ->]).
  rewrite E. unfold ret. cbv zeta.
  destruct (fetch w _) as [response|e];
    [destruct (resp_ok response); [destruct (resp_json response)|]|];
    reflexivity.
Qed.

Lemma create_video_without_reference_witness :
  trace (create_video Demo.world (Demo.create None (Some "")))
  = [ EvFetch
        {| req_url := "https://api.openai.com/v1/videos";
           req_method := POST;
           req_headers := [("Authorization", "Bearer sk-test")];
           req_body :=
             FormBody [ Field "model" "sora-2"; Field "prompt" "a cat";
                        Field "seconds" "4"; Field "size" "720x1280" ] |} ].
Proof.
  apply (create_video_without_reference Demo.world (Demo.create None (Some "")) "sk-test").
  - reflexivity.
  - right. reflexivity.
Defined.

(** X16. A reference that was asked for is never dropped: when
    [input_reference] is non-empty, every request create-video sends carries,
    after the four text entries, the file entry [input_reference] named after
    the resolved path and typed by [detectMime]; the file passed [stat], and
    [stat] was the first call.  If preparing the file fails, nothing is sent. *)
Theorem requested_reference_is_always_attached
        (w : World) (a : CreateVideoArgs) (input_reference : string) (req : Request) :
  cv_input_reference a = Some input_reference ->
  input_reference <> "" ->
  fetched (create_video w a) req ->
  let filePath := path_resolve w input_reference in
  let filename := path_basename w filePath in
  exists data rest,
    req_body req
    = FormBody
        (text_fields a (getVideoSize (cv_orientation a) (cv_size a))
         ++ [FilePart "input_reference" (mkBlob data (detectMime filename)) filename]) /\
    fs_stat w filePath = Ok tt /\
    trace (create_video w a) = EvStat filePath :: rest.
Proof.
  intros Href Hne Hreq. cbv zeta.
  apply create_video_fetched in Hreq. cbv zeta in Hreq.
  destruct Hreq as (apiKey & t & form & _ & Hform & -> & env & Hrun).
  rewrite Hrun. clear Hrun. revert Hform.
  unfold handle_input_reference. rewrite Href.
  destruct input_reference as [|c r]; [now elim Hne |]. cbn [JS.truthy].
  rewrite prepare_input_reference_unfold. cbv zeta.
  destruct (fs_stat w _) as [[]|e]; run; [|discriminate].
  destruct (parseTargetSize _) as [[width height]|e]; run; [|discriminate].
  destruct (JS.startsWith _ _);
    [destruct (sharp_resize w _ width height cover_center) as [buf|e]
    |destruct (fs_readFile w _) as [buf|e]]; run; try discriminate;
    intros [= <- <-]; eexists buf, _; repeat split; reflexivity.
Qed.

Lemma requested_reference_witness :
  let a := Demo.create (Some "1280x720") (Some "clip.mp4") in
  exists data rest,
    FormBody (text_fields a "1280x720"
              ++ [FilePart "input_reference" (mkBlob Demo.clip_bytes "video/mp4") "clip.mp4"])
    = FormBody
        (text_fields a (getVideoSize (cv_orientation a) (cv_size a))
         ++ [FilePart "input_reference" (mkBlob data (detectMime "clip.mp4")) "clip.mp4"]) /\
    fs_stat Demo.world "/work/clip.mp4" = Ok tt /\
    trace (create_video Demo.world a) = EvStat "/work/clip.mp4" :: rest.
Proof.
  cbv zeta.
  apply (requested_reference_is_always_attached
           Demo.world (Demo.create (Some "1280x720") (Some "clip.mp4")) "clip.mp4"
           (create_request "sk-test"
              (text_fields (Demo.create (Some "1280x720") (Some "clip.mp4")) "1280x720"
               ++ [FilePart "input_reference"
                     (mkBlob Demo.clip_bytes "video/mp4") "clip.mp4"]))).
  - reflexivity.
  - discriminate.
  - do 2 right. left. reflexivity.
Defined.

(** ** delete-video: bodies that are not objects *)

(** X17. When the JSON body of a 2xx delete answer has no properties of its
    own to spread ([null], a number, a boolean, an empty object), the
    structured output of delete-video is exactly [id], [deleted: true] and
    the success message. *)
Theorem delete_video_plain_output
        (w : World) (video_id apiKey : string) (response : Response) (data : JsVal) :
  getApiKey w = Ok apiKey ->
  fetch w (delete_request apiKey video_id) = Ok response ->
  resp_ok response = true ->
  resp_json response = Ok data ->
  own_properties data = ∅ ->
  exists env,
    delete_video w video_id = ([EvFetch (delete_request apiKey video_id)], Ok env) /\
    isError env = false /\
    structuredContent env
    = Some (VObj {[ "id" := VStr video_id;
                    "deleted" := VBool true;
                    "message" := VStr ("Successfully deleted video " +:+ video_id) ]}).
Proof.
  intros Hkey Hfetch Hok Hjson Hnone.
  unfold delete_video. rewrite Hkey. run. rewrite Hfetch. run.
  rewrite (check_ok_passes _ _ Hok). run. rewrite Hjson. run.
  eexists. split; [reflexivity |]. split; [reflexivity |].
  unfold delete_output. run. rewrite Hnone.
  now rewrite (left_id_L ∅ (∪)).
Qed.

Lemma delete_video_plain_witness :
  exists env,
    delete_video Studio.world "void"
    = ([EvFetch (delete_request "sk-test" "void")], Ok env) /\
    isError env = false /\
    structuredContent env
    = Some (VObj {[ "id" := VStr "void";
                    "deleted" := VBool true;
                    "message" := VStr ("Successfully deleted video " +:+ "void") ]}).
Proof.
  apply (delete_video_plain_output Studio.world "void" "sk-test" Studio.nothing VNull);
    reflexivity.
Defined.

(** ** Printing and parsing numbers *)












(** X19. Only a custom size can fail the size check: if the resolved size is
    one the handler refuses, then no orientation was given and the caller
    supplied that very string, non-empty, as [size]. *)
Theorem only_a_custom_size_is_rejected
        (orientation : option Orientation) (size : option string) :
  size_rejected (getVideoSize orientation size) ->
  orientation = None /\
  exists custom,
    size = Some custom /\ custom <> "" /\ getVideoSize orientation size = custom.
Proof.
  assert (V : ~ size_rejected "720x1280")
    by (intros H; apply parseTargetSize_rejects in H as (m & Hm & _); discriminate Hm).
  assert (L : ~ size_rejected "1280x720")
    by (intros H; apply parseTargetSize_rejects in H as (m & Hm & _); discriminate Hm).
  destruct orientation as [[|]|]; cbn [getVideoSize ORIENTATION_SIZES];
    try (intros H; now elim V); try (intros H; now elim L).
  destruct size as [[|c s]|]; cbn [JS.truthy];
    try (intros H; now elim V).
  intros _. split; [reflexivity |]. exists (String c s). repeat split. discriminate.
Qed.

Lemma only_a_custom_size_witness :
  @None Orientation = None /\
  exists custom,
    Some "tall" = Some custom /\ custom <> "" /\ getVideoSize None (Some "tall") = custom.
Proof. apply (only_a_custom_size_is_rejected None (Some "tall")). exact I. Defined.

(** ** MIME detection, whatever the case and the stem *)

Lemma lower_char_dot (c : ascii) : Ascii.eqb (JS.lower_char c) "." = Ascii.eqb c ".".
Proof. destruct c as [[] [] [] [] [] [] [] []]; reflexivity. Qed.

Lemma free_of_dot_toLowerCase (s : string) :
  free_of "." (JS.toLowerCase s) = free_of "." s.
Proof.
  induction s as [|c s IH]; [reflexivity |].
  cbn [JS.toLowerCase free_of]. now rewrite lower_char_dot, IH.
Qed.

(** X20. Only the text after the last dot counts, in any letter case: for a
    name [stem.ext] where [ext] has no dot, the MIME type is the table entry
    of the lower-cased [ext] ([image/jpeg] if there is none), whatever the
    stem is, dots included. *)
Theorem detectMime_ignores_case_and_stem (stem ext : string) :
  free_of "." ext = true ->
  detectMime (stem +:+ "." +:+ ext) = mime_of_extension (JS.toLowerCase ext).
Proof.
  intros Hfree.
  assert (E : extension (stem +:+ "." +:+ ext) = Some (JS.toLowerCase ext)).
  { unfold extension. rewrite toLowerCase_append, toLowerCase_append.
    change (JS.toLowerCase "." +:+ JS.toLowerCase ext)
      with (String "."%char (JS.toLowerCase ext)).
    rewrite split_append, (split_free "." (JS.toLowerCase ext)), pop_snoc;
      [reflexivity | now rewrite free_of_dot_toLowerCase]. }
  unfold detectMime. rewrite E.
  unfold mime_of_extension, MIME_TABLE, ext_is. cbn [assoc].
  repeat (destruct (String.eqb (JS.toLowerCase ext) _); [reflexivity |]).
  reflexivity.
Qed.

Lemma detectMime_ignores_case_witness :
  detectMime ("holiday.2024.final" +:+ "." +:+ "WebM") = mime_of_extension (JS.toLowerCase "WebM").
Proof. apply (detectMime_ignores_case_and_stem "holiday.2024.final" "WebM"). reflexivity. Defined.

(** ** list-videos: the query *)

(** X21. The query of list-videos has [limit] first and [order] last, with
    the defaults 20 and [desc]; [after] sits between them exactly when it is
    given and non-empty.  This is the only request list-videos sends. *)
Theorem list_videos_query (w : World) (a : ListVideosArgs) (req : Request) :
  fetched (list_videos w a) req ->
  let limit := match lv_limit a with Some l => l | None => "20" end in
  let order := match lv_order a with Some asc => "asc" | _ => "desc" end in
  req_method req = GET /\
  req_url req
  = "https://api.openai.com/v1/videos?"
    +:+ URLSearchParams_toString w
          (match lv_after a with
           | Some (String c r) =>
               [("limit", limit); ("after", String c r); ("order", order)]
           | _ => [("limit", limit); ("order", order)]
           end).
Proof.
  intros H. cbv zeta.
  assert (E : exists apiKey, req = list_request w apiKey a).
  { revert H. unfold list_videos. repeat oracle; intros H; fetched_cases H; eauto. }
  destruct E as (apiKey & ->). split; [reflexivity |].
  cbn [req_url list_request]. unfold list_params, JS.default_arg, order_name.
  destruct (lv_after a) as [[|c r]|], (lv_order a) as [[|]|]; reflexivity.
Qed.

Lemma list_videos_query_witness :
  let a := {| lv_limit := Some "5"; lv_after := Some ""; lv_order := None |} in
  req_method (list_request Demo.world "sk-test" a) = GET /\
  req_url (list_request Demo.world "sk-test" a)
  = "https://api.openai.com/v1/videos?"
    +:+ URLSearchParams_toString Demo.world [("limit", "5"); ("order", "desc")].
Proof.
  cbv zeta.
  apply (list_videos_query
           Demo.world {| lv_limit := Some "5"; lv_after := Some ""; lv_order := None |}).
  left. reflexivity.
Defined.

(** X22. MIME detection always answers with one of six types, and sorts
    every file into exactly one of two kinds: an image (its type starts with
    [image/]; this includes every unknown extension) or one of the three
    video types. *)
Theorem detectMime_sorts_into_two_kinds (filename : string) :
  In (detectMime filename)
     ["image/png"; "image/webp"; "image/jpeg"; "video/mp4"; "video/quicktime"; "video/webm"] /\
  JS.startsWith (detectMime filename) "video/"
  = negb (JS.startsWith (detectMime filename) "image/").
Proof.
  unfold detectMime.
  repeat (match goal with |- context [if ?b then _ else _] => destruct b end;
          [split; [cbn; auto 10 | reflexivity] |]).
  split; [cbn; auto 10 | reflexivity].
Qed.

(** ** server-setup.ts: the environment and the start of the server *)

Lemma set_if_unset_keeps (env : gmap string string) (entry : string * string)
      (key value : string) :
  env !! key = Some value -> value <> "" ->
  set_if_unset env entry !! key = Some value.
Proof.
  intros Hkey Hne. unfold set_if_unset, env_truthy.
  destruct (decide (fst entry = key)) as [-> | Hother].
  - rewrite Hkey. destruct value; [now elim Hne | exact Hkey].
  - destruct (match env !! fst entry with Some v => JS.truthy v | None => false end);
      [exact Hkey | now rewrite lookup_insert_ne].
Qed.

Lemma set_if_unset_other (env : gmap string string) (entry : string * string)
      (key : string) :
  fst entry <> key -> set_if_unset env entry !! key = env !! key.
Proof.
  intros Hother. unfold set_if_unset.
  destruct (env_truthy env (fst entry)); [reflexivity | now rewrite lookup_insert_ne].
Qed.

Lemma load_keeps (parsed : list (string * string)) (env : gmap string string)
      (key value : string) :
  env !! key = Some value -> value <> "" ->
  fold_left set_if_unset parsed env !! key = Some value.
Proof.
  revert env. induction parsed as [|entry parsed IH]; intros env Hkey Hne; [exact Hkey |].
  cbn [fold_left]. apply IH; [|exact Hne]. now apply set_if_unset_keeps.
Qed.

Lemma load_other (parsed : list (string * string)) (env : gmap string string)
      (key : string) :
  ~ In key (map fst parsed) ->
  fold_left set_if_unset parsed env !! key = env !! key.
Proof.
  revert env. induction parsed as [|entry parsed IH]; intros env Hnot; [reflexivity |].
  cbn [fold_left]. cbn [map In] in Hnot.
  rewrite IH by tauto. apply set_if_unset_other. tauto.
Qed.

Lemma load_fills (parsed : list (string * string)) (env : gmap string string)
      (key value : string) :
  List.NoDup (map fst parsed) -> In (key, value) parsed ->
  env_truthy env key = false ->
  fold_left set_if_unset parsed env !! key = Some value.
Proof.
  revert env.
  induction parsed as [|entry parsed IH]; intros env Hnodup Hin Hunset; [destruct Hin |].
  cbn [map] in Hnodup. apply NoDup_cons_iff in Hnodup as [Hfresh Hnodup].
  cbn [fold_left]. destruct Hin as [-> | Hin].
  - rewrite load_other by exact Hfresh.
    unfold set_if_unset. cbn [fst snd]. rewrite Hunset. apply lookup_insert_eq.
  - assert (Hother : fst entry <> key).
    { intros E. apply Hfresh. rewrite E.
      change key with (fst (key, value)). now apply in_map. }
    apply IH; [exact Hnodup | exact Hin |].
    unfold env_truthy in *. now rewrite set_if_unset_other.
Qed.

Lemma load_source (parsed : list (string * string)) (env : gmap string string)
      (key value : string) :
  fold_left set_if_unset parsed env !! key = Some value ->
  env !! key = Some value \/ In (key, value) parsed.
Proof.
  revert env. induction parsed as [|entry parsed IH]; intros env H; [now left |].
  cbn [fold_left] in H. apply IH in H as [H | H]; [|right; now right].
  unfold set_if_unset in H. destruct (env_truthy env (fst entry)); [now left |].
  destruct (decide (fst entry = key)) as [E | Hother].
  - rewrite <- E, lookup_insert_eq in H. injection H as <-.
    right. left. destruct entry as [k v]. cbn [fst snd] in *. now subst.
  - rewrite lookup_insert_ne in H by exact Hother. now left.
Qed.

Lemma load_dotenv_keeps (file : option (Result (list (string * string))))
      (env : gmap string string) (key value : string) :
  env !! key = Some value -> value <> "" ->
  load_dotenv file env !! key = Some value.
Proof.
  intros Hkey Hne. destruct file as [[parsed|e]|]; cbn [load_dotenv];
    [now apply load_keeps | exact Hkey | exact Hkey].
Qed.

(** X23. Loading [.env] never overrides the environment: a variable that is
    already set to a non-empty value keeps it, whatever the file says, and a
    variable the file does not mention is left as it was.  A missing or
    unreadable file changes nothing. *)
Theorem dotenv_never_overrides
        (file : option (Result (list (string * string))))
        (env : gmap string string) (key : string) :
  (forall value, env !! key = Some value -> value <> "" ->
     load_dotenv file env !! key = Some value) /\
  (forall parsed, file = Some (Ok parsed) -> ~ In key (map fst parsed) ->
     load_dotenv file env !! key = env !! key) /\
  ((file = None \/ exists e, file = Some (Throw e)) -> load_dotenv file env = env).
Proof.
  repeat apply conj.
  - intros value Hkey Hne. now apply load_dotenv_keeps.
  - intros parsed -> Hnot. now apply load_other.
  - intros [-> | (e & ->)]; reflexivity.
Qed.

Lemma dotenv_never_overrides_witness :
  load_dotenv (Some (Ok [("PORT", "3000"); ("OPENAI_API_KEY", "sk-file")]))
              {[ "OPENAI_API_KEY" := "sk-shell" ]} !! "OPENAI_API_KEY"
  = Some "sk-shell".
Proof.
  apply (proj1 (dotenv_never_overrides
                  (Some (Ok [("PORT", "3000"); ("OPENAI_API_KEY", "sk-file")]))
                  {[ "OPENAI_API_KEY" := "sk-shell" ]} "OPENAI_API_KEY")
               "sk-shell").
  - reflexivity.
  - discriminate.
Defined.

(** X24. Loading [.env] fills what is missing: a variable that is unset or
    empty in the environment gets the value the file gives it (the entries of
    a parsed object have distinct keys). *)
Theorem dotenv_fills_unset
        (parsed : list (string * string)) (env : gmap string string)
        (key value : string) :
  List.NoDup (map fst parsed) ->
  In (key, value) parsed ->
  env !! key = None \/ env !! key = Some "" ->
  load_dotenv (Some (Ok parsed)) env !! key = Some value.
Proof.
  intros Hnodup Hin Hunset. cbn [load_dotenv].
  apply load_fills; [exact Hnodup | exact Hin |].
  unfold env_truthy. now destruct Hunset as [-> | ->].
Qed.

Lemma dotenv_fills_unset_witness :
  load_dotenv (Some (Ok [("PORT", "3000"); ("OPENAI_API_KEY", "sk-file")]))
              {[ "OPENAI_API_KEY" := "" ]} !! "OPENAI_API_KEY"
  = Some "sk-file".
Proof.
  apply (dotenv_fills_unset
           [("PORT", "3000"); ("OPENAI_API_KEY", "sk-file")]
           {[ "OPENAI_API_KEY" := "" ]} "OPENAI_API_KEY" "sk-file").
  - repeat constructor; cbn; intuition discriminate.
  - right. left. reflexivity.
  - right. reflexivity.
Defined.

(** X25. When the server starts.  After [.env] is loaded, [createServer]
    returns the server with the seven tools exactly when a non-empty
    [OPENAI_API_KEY] is available, from the environment or else from the file;
    otherwise the process exits with code 1. *)
Theorem server_starts_iff_key_available
        (file : option (Result (list (string * string))))
        (env : gmap string string) :
  (forall parsed, file = Some (Ok parsed) -> List.NoDup (map fst parsed)) ->
  (createServer (load_dotenv file env) = Serve "sora-mcp-server" "1.0.0" TOOL_NAMES \/
   createServer (load_dotenv file env)
   = Exit 1 "Error: OPENAI_API_KEY environment variable is required") /\
  (createServer (load_dotenv file env) = Serve "sora-mcp-server" "1.0.0" TOOL_NAMES <->
   (exists key, env !! "OPENAI_API_KEY" = Some key /\ key <> "") \/
   (exists parsed key,
      file = Some (Ok parsed) /\ In ("OPENAI_API_KEY", key) parsed /\ key <> "")).
Proof.
  intros Hnodup. unfold createServer.
  destruct (env_truthy (load_dotenv file env) "OPENAI_API_KEY") eqn:Hloaded; cbn [negb].
  - split; [now left |]. split; [intros _ | reflexivity].
    unfold env_truthy in Hloaded.
    destruct (load_dotenv file env !! "OPENAI_API_KEY") as [key|] eqn:Hkey;
      [|discriminate].
    assert (Hne : key <> "") by (intros ->; discriminate Hloaded).
    destruct file as [[parsed|e]|]; cbn [load_dotenv] in Hkey;
      [|left; eauto | left; eauto].
    apply load_source in Hkey as [Hkey | Hin]; [left; eauto | right; eauto].
  - split; [now right |]. split; [discriminate |]. intros H. exfalso.
    unfold env_truthy in Hloaded.
    destruct H as [(key & Hkey & Hne) | (parsed & key & -> & Hin & Hne)].
    + rewrite (load_dotenv_keeps file env "OPENAI_API_KEY" key Hkey Hne) in Hloaded.
      destruct key; [now elim Hne | discriminate].
    + cbn [load_dotenv] in Hloaded.
      destruct (env !! "OPENAI_API_KEY") as [[|c k]|] eqn:Hkey.
      * rewrite (load_fills parsed env _ key (Hnodup _ eq_refl) Hin) in Hloaded.
        -- destruct key; [now elim Hne | discriminate].
        -- unfold env_truthy. now rewrite Hkey.
      * rewrite (load_keeps parsed env _ (String c k) Hkey) in Hloaded; discriminate.
      * rewrite (load_fills parsed env _ key (Hnodup _ eq_refl) Hin) in Hloaded.
        -- destruct key; [now elim Hne | discriminate].
        -- unfold env_truthy. now rewrite Hkey.
Qed.

Lemma server_starts_witness :
  createServer (load_dotenv (Some (Ok [("OPENAI_API_KEY", "sk-file")])) ∅)
  = Serve "sora-mcp-server" "1.0.0" TOOL_NAMES.
Proof.
  assert (N : forall parsed,
             Some (Ok [("OPENAI_API_KEY", "sk-file")]) = Some (Ok parsed) ->
             List.NoDup (map fst parsed))
    by (intros parsed [= <-]; repeat constructor; intros []).
  apply (proj2 (proj2 (server_starts_iff_key_available
                         (Some (Ok [("OPENAI_API_KEY", "sk-file")])) ∅ N))).
  right. exists [("OPENAI_API_KEY", "sk-file")], "sk-file".
  split; [reflexivity |]. split; [now left | discriminate].
Defined.

(** X26. The start-up check and the handlers agree.  If [createServer]
    returned the server and the handlers see the same [OPENAI_API_KEY], then
    no tool call stops at the key: [getApiKey] succeeds and every call gets
    as far as its first external call. *)
Theorem started_server_has_its_key
        (env : gmap string string) (w : World) (name version : string)
        (tools : list string) :
  runs_in env w ->
  createServer env = Serve name version tools ->
  exists apiKey,
    getApiKey w = Ok apiKey /\
    forall c, trace (call_tool w c) <> [].
Proof.
  intros [Hsame _]. unfold createServer, env_truthy.
  destruct (env !! "OPENAI_API_KEY") as [[|ch key]|] eqn:Hkey; try discriminate.
  intros _. exists (String ch key).
  assert (E : getApiKey w = Ok (String ch key)) by (unfold getApiKey; now rewrite Hsame).
  split; [exact E |]. intros c. destruct c; cbn [call_tool].
  - rewrite create_video_unfold. cbv zeta. rewrite E.
    unfold handle_input_reference.
    destruct (cv_input_reference a) as [[|c r]|]; cbn [JS.truthy]; run.
    + destruct (fetch w _) as [response|e];
        [destruct (resp_ok response); [destruct (resp_json response)|]|]; discriminate.
    + rewrite prepare_input_reference_unfold. cbv zeta.
      destruct (fs_stat w _); run; [|discriminate].
      destruct (parseTargetSize _) as [[width height]|e]; run; [|discriminate].
      destruct (JS.startsWith _ _);
        [destruct (sharp_resize w _ width height cover_center)
        |destruct (fs_readFile w _)]; run; try discriminate;
        (destruct (fetch w _) as [response|e];
         [destruct (resp_ok response); [destruct (resp_json response)|]|]; discriminate).
    + destruct (fetch w _) as [response|e];
        [destruct (resp_ok response); [destruct (resp_json response)|]|]; discriminate.
  - unfold_tools. rewrite E. run. repeat oracle; discriminate.
  - unfold_tools. rewrite E. run. repeat oracle; discriminate.
  - unfold_tools. rewrite E. run. repeat oracle; discriminate.
  - unfold_tools. rewrite E. run. repeat oracle; discriminate.
  - unfold_tools. rewrite E. run. repeat oracle; discriminate.
  - unfold_tools. rewrite E. run. repeat oracle; discriminate.
Qed.

Lemma started_server_witness :
  exists apiKey,
    getApiKey Demo.world = Ok apiKey /\
    forall c, trace (call_tool Demo.world c) <> [].
Proof.
  apply (started_server_has_its_key
           {[ "OPENAI_API_KEY" := "sk-test" ]} Demo.world
           "sora-mcp-server" "1.0.0" TOOL_NAMES).
  - split; reflexivity.
  - reflexivity.
Defined.

(** ** The HTTP entry point *)



